(** * Provider registry, provider contract and response cache of claude-prompt-cli

    A shallow embedding of [lib/providers/registry.js],
    [lib/providers/base-provider.js], [lib/providers/huggingface.js], the
    local-inference provider (class [OllamaProvider]) and the cache-file
    maintenance of [lib/ai-enhancer.js].

    Conventions.
    - A JavaScript call that may throw returns an [outcome]: [Returned v] or
      [Threw message], where [message] is the thrown [Error]'s [message].
    - [await] is sequential composition: the embedding runs one task at a
      time, so a fire-and-forget promise is modelled as completing where it
      is started.
    - Console output is not part of the state.
    - Clock readings ([Date.now()], [new Date()]) are integers, in
      milliseconds. *)

From Stdlib Require Import ZArith QArith Lia DecimalString Ascii.
From stdpp Require Import base option list strings gmap.

Set Default Proof Using "Type".
Local Open Scope string_scope.
Local Open Scope list_scope.
Local Open Scope Z_scope.

(** ** JavaScript values *)

Inductive outcome (A : Type) : Type :=
| Returned (a : A)
| Threw (message : string).
Arguments Returned {A} a.
Arguments Threw {A} message.

(** Truthiness of a string: only the empty string is falsy. *)
Definition truthy (s : string) : bool :=
  match s with
  | EmptyString => false
  | String _ _ => true
  end.

(** Truthiness of a value that is [null]/[undefined] ([None]) or a string. *)
Definition truthy_opt (o : option string) : bool :=
  match o with
  | Some s => truthy s
  | None => false
  end.

(** [a || b] on such values. *)
Definition js_or (a b : option string) : option string :=
  if truthy_opt a then a else b.

Definition newline : string := String (Ascii.ascii_of_nat 10) EmptyString.

(** [xs.join(sep)] *)
Fixpoint join (sep : string) (xs : list string) : string :=
  match xs with
  | [] => EmptyString
  | [x] => x
  | x :: rest => x +:+ sep +:+ join sep rest
  end.

(** Decimal rendering of an integer, as a template literal prints it. *)
Definition show_Z (z : Z) : string := NilZero.string_of_int (Z.to_int z).

(** ** Object literals used as look-up tables

    A look-up [table[key]] in an object literal also finds the members that
    every object inherits from [Object.prototype].  They are functions,
    except [__proto__], which is the prototype object itself; all of them
    are truthy.  [Object_prototype] lists them with the text that a
    template literal prints for each. *)
Definition Object_prototype : list (string * string) :=
  [("constructor", "function Object() { [native code] }");
   ("__defineGetter__", "function __defineGetter__() { [native code] }");
   ("__defineSetter__", "function __defineSetter__() { [native code] }");
   ("hasOwnProperty", "function hasOwnProperty() { [native code] }");
   ("__lookupGetter__", "function __lookupGetter__() { [native code] }");
   ("__lookupSetter__", "function __lookupSetter__() { [native code] }");
   ("isPrototypeOf", "function isPrototypeOf() { [native code] }");
   ("propertyIsEnumerable", "function propertyIsEnumerable() { [native code] }");
   ("toString", "function toString() { [native code] }");
   ("valueOf", "function valueOf() { [native code] }");
   ("__proto__", "[object Object]");
   ("toLocaleString", "function toLocaleString() { [native code] }")].

(** The inherited member that [key] names, as a template literal prints
    it. *)
Definition inherited_member (key : string) : option string :=
  snd <$> List.find (fun member => String.eqb member.1 key) Object_prototype.

(** ** Objects filled by assignment

    [obj[key] = value] on an object that starts as [{}], with the own
    properties kept in the order in which [Object.keys] and
    [Object.entries] list them: the keys that are array indices first, in
    ascending numeric order, then the other keys in the order of their
    creation.  Assigning to [__proto__] creates no property. *)
Module JsObject.

Definition digit_value (c : Ascii.ascii) : option N :=
  let n := Ascii.N_of_ascii c in
  if ((48 <=? n) && (n <=? 57))%N then Some (n - 48)%N else None.

Fixpoint digits_value (s : string) (acc : N) : option N :=
  match s with
  | EmptyString => Some acc
  | String c rest =>
      match digit_value c with
      | Some d => digits_value rest (10 * acc + d)%N
      | None => None
      end
  end.

(** The array index that [key] denotes: a decimal numeral without a
    leading zero, below [2^32 - 1]. *)
Definition array_index (key : string) : option N :=
  match key with
  | EmptyString => None
  | String c rest =>
      if Ascii.eqb c "0"%char && truthy rest then None
      else
        match digits_value key 0%N with
        | Some n => if (n <? 4294967295)%N then Some n else None
        | None => None
        end
  end.

Section WithValue.

Context {A : Type}.

Definition js_object : Type := list (string * A).

(** The assignment for a key that is the array index [n]. *)
Fixpoint set_index (n : N) (key : string) (v : A) (obj : js_object) : js_object :=
  match obj with
  | [] => [(key, v)]
  | (k', v') :: rest =>
      if String.eqb k' key then (key, v) :: rest
      else
        match array_index k' with
        | Some m =>
            if (n <? m)%N then (key, v) :: (k', v') :: rest
            else (k', v') :: set_index n key v rest
        | None => (key, v) :: (k', v') :: rest
        end
  end.

(** The assignment for any other key. *)
Fixpoint set_named (key : string) (v : A) (obj : js_object) : js_object :=
  match obj with
  | [] => [(key, v)]
  | (k', v') :: rest =>
      if String.eqb k' key then (key, v) :: rest
      else (k', v') :: set_named key v rest
  end.

(** [obj[key] = v] *)
Definition object_set (key : string) (v : A) (obj : js_object) : js_object :=
  if String.eqb key "__proto__" then obj
  else
    match array_index key with
    | Some n => set_index n key v obj
    | None => set_named key v obj
    end.

(** The own property [obj[key]]. *)
Fixpoint object_get (key : string) (obj : js_object) : option A :=
  match obj with
  | [] => None
  | (k', v) :: rest => if String.eqb k' key then Some v else object_get key rest
  end.

(** [Object.keys(obj)] *)
Definition object_keys (obj : js_object) : list string := obj.*1.

End WithValue.

Arguments js_object : clear implicits.

End JsObject.

(** ** The registry ([lib/providers/registry.js]) *)

Module Registry.

Section WithProvider.

(** Provider objects, the configuration handed to their constructors, what
    an operation returns, and everything an operation can read or change
    (the providers' own counters and caches, the network, the disk). *)
Context {Provider Config Result World : Type}.

(** A JavaScript [Map] with string keys: keys are unique and iteration
    follows the order in which keys were first inserted. *)
Definition js_map : Type := list (string * Provider).

Fixpoint map_get (k : string) (m : js_map) : option Provider :=
  match m with
  | [] => None
  | (k', v) :: rest => if String.eqb k' k then Some v else map_get k rest
  end.

(** [m.set(k, v)]: a key already present keeps its position. *)
Fixpoint map_set (k : string) (v : Provider) (m : js_map) : js_map :=
  match m with
  | [] => [(k, v)]
  | (k', v') :: rest =>
      if String.eqb k' k then (k, v) :: rest else (k', v') :: map_set k v rest
  end.

Definition map_has (k : string) (m : js_map) : bool :=
  match map_get k m with Some _ => true | None => false end.

Definition map_keys (m : js_map) : list string := m.*1.

Record registry : Type := {
  providers : js_map;
  defaultProvider : option string (* [None] is [null] *)
}.

(** The fields right after [this.providers = new Map(); this.defaultProvider = null]. *)
Definition empty_registry : registry :=
  {| providers := []; defaultProvider := None |}.

(** [registerProvider(name, ProviderClass, config)].  [ProviderClass] is the
    constructor: it returns the new provider or throws. *)
Definition registerProvider (name : string)
    (ProviderClass : Config -> outcome Provider) (config : Config)
    (reg : registry) : registry :=
  match ProviderClass config with
  | Returned provider =>
      {| providers := map_set name provider (providers reg);
         defaultProvider :=
           if negb (truthy_opt (defaultProvider reg))
           then Some name
           else defaultProvider reg |}
  | Threw _ => reg (* console.warn *)
  end.

Definition not_found_message (name : string) (m : js_map) : string :=
  "Provider '" +:+ name +:+ "' not found. Available providers: "
    +:+ join ", " (map_keys m).

(** [getProvider(name)]: the argument is a string or [undefined]; the result
    of the first branch is whatever [Map.get] gives, possibly [undefined]. *)
Definition getProvider (name : option string) (reg : registry)
    : outcome (option Provider) :=
  if negb (truthy_opt name) && truthy_opt (defaultProvider reg) then
    Returned (map_get (default EmptyString (defaultProvider reg)) (providers reg))
  else
    match name ≫= (fun n => map_get n (providers reg)) with
    | Some provider => Returned (Some provider)
    | None => Threw (not_found_message (default "undefined" name) (providers reg))
    end.

(** [setDefaultProvider(name)] *)
Definition setDefaultProvider (name : string) (reg : registry)
    : outcome unit * registry :=
  if negb (map_has name (providers reg)) then
    (Threw ("Provider '" +:+ name +:+ "' not found"), reg)
  else
    (Returned tt, {| providers := providers reg; defaultProvider := Some name |}).

(** An operation receives what the registry hands it (a provider, or
    [undefined] in the one place where [getProvider] may return that) and
    the current world. *)
Definition operation : Type :=
  option Provider -> World -> outcome Result * World.

(** One element of the [errors] array: [{ provider, error }]. *)
Definition failure : Type := (string * string)%type.

Definition all_failed_message (errors : list failure) : string :=
  "All providers failed:" +:+ newline
    +:+ join newline (map (fun e => "- " +:+ e.1 +:+ ": " +:+ e.2) errors).

(** [name === preferredProvider] *)
Definition is_preferred (name : string) (preferredProvider : option string) : bool :=
  match preferredProvider with
  | Some p => String.eqb name p
  | None => false
  end.

(** The [for (const [name, provider] of this.providers)] loop, followed by
    the final [throw]. *)
Fixpoint fallback_loop (op : operation) (preferredProvider : option string)
    (rest : js_map) (errors : list failure) (w : World)
    : outcome Result * World :=
  match rest with
  | [] => (Threw (all_failed_message errors), w)
  | (name, provider) :: rest' =>
      if is_preferred name preferredProvider then
        fallback_loop op preferredProvider rest' errors w
      else
        match op (Some provider) w with
        | (Returned r, w') => (Returned r, w')
        | (Threw msg, w') =>
            fallback_loop op preferredProvider rest' (errors ++ [(name, msg)]) w'
        end
  end.

(** [executeWithFallback(operation, options)]; [options_provider] is
    [options.provider]. *)
Definition executeWithFallback (op : operation) (options_provider : option string)
    (reg : registry) (w : World) : outcome Result * World :=
  let preferredProvider := js_or options_provider (defaultProvider reg) in
  if truthy_opt preferredProvider then
    match getProvider preferredProvider reg with
    | Returned provider =>
        match op provider w with
        | (Returned r, w') => (Returned r, w')
        | (Threw msg, w') =>
            fallback_loop op preferredProvider (providers reg)
              [(default EmptyString preferredProvider, msg)] w'
        end
    | Threw msg =>
        fallback_loop op preferredProvider (providers reg)
          [(default EmptyString preferredProvider, msg)] w
    end
  else
    fallback_loop op preferredProvider (providers reg) [] w.

(** *** Reachable registries *)

Inductive reachable : registry -> Prop :=
| reach_new : reachable empty_registry
| reach_register name cls config reg :
    reachable reg -> reachable (registerProvider name cls config reg)
| reach_set_default name reg :
    reachable reg -> reachable (setDefaultProvider name reg).2.

(** The invariant: the default, once assigned, names a registered provider. *)
Definition default_registered (reg : registry) : Prop :=
  forall n, defaultProvider reg = Some n -> is_Some (map_get n (providers reg)).

(** *** The fallback order in the words of the specification

    A run of failures: every provider of [l], tried from left to right,
    threw; [errs] holds one entry per provider, in that order, and [w'] is
    the world after the last attempt. *)
Inductive all_threw (op : operation) : js_map -> World -> list failure -> World -> Prop :=
| all_threw_nil w : all_threw op [] w [] w
| all_threw_cons name provider rest w msg w1 errs w' :
    op (Some provider) w = (Threw msg, w1) ->
    all_threw op rest w1 errs w' ->
    all_threw op ((name, provider) :: rest) w ((name, msg) :: errs) w'.

(** The providers other than [p], in registration order. *)
Definition others (p : string) (m : js_map) : js_map :=
  List.filter (fun e => negb (String.eqb e.1 p)) m.

End WithProvider.

Arguments js_map : clear implicits.
Arguments registry : clear implicits.
Arguments operation : clear implicits.

End Registry.

(** ** The provider contract ([lib/providers/base-provider.js]) *)

(** A caught exception as the providers inspect it: [error.message],
    [error.code] and [error.status]. *)
Record js_error : Type := {
  err_message : string;
  err_code : option string;
  err_status : option string
}.

(** [new Error(message)] *)
Definition new_Error (message : string) : js_error :=
  {| err_message := message; err_code := None; err_status := None |}.

Module BaseProvider.

Record rate_limits : Type := {
  requestsPerHour : Z;
  requestsPerMinute : Z;
  tokensPerMinute : Z
}.

Record usage_counters : Type := {
  requests : Z;
  tokens : Z;
  lastReset : Z
}.

(** The fields of [BaseProvider] that the bookkeeping reads and writes. *)
Record base : Type := {
  name : string;
  rateLimits : rate_limits;
  usage : usage_counters
}.

(** [constructor(name, config)], run when the clock shows [now]. *)
Definition constructor (name : string) (now : Z) : base :=
  {| name := name;
     rateLimits := {| requestsPerHour := 1000;
                      requestsPerMinute := 60;
                      tokensPerMinute := 10000 |};
     usage := {| requests := 0; tokens := 0; lastReset := now |} |}.

Definition with_usage (u : usage_counters) (b : base) : base :=
  {| name := name b; rateLimits := rateLimits b; usage := u |}.

Definition with_rateLimits (r : rate_limits) (b : base) : base :=
  {| name := name b; rateLimits := r; usage := usage b |}.

Definition rate_limit_message (limit : Z) : string :=
  "Rate limit exceeded: " +:+ show_Z limit +:+ " requests per hour".

(** [checkRateLimits()], run when the clock shows [now]. *)
Definition checkRateLimits (now : Z) (b : base) : outcome unit * base :=
  let timeSinceReset := now - lastReset (usage b) in
  let b1 :=
    if 3600000 <? timeSinceReset
    then with_usage {| requests := 0; tokens := 0; lastReset := now |} b
    else b in
  if requestsPerHour (rateLimits b1) <=? requests (usage b1) then
    (Threw (rate_limit_message (requestsPerHour (rateLimits b1))), b1)
  else
    (Returned tt, b1).

(** [trackUsage(tokens)] *)
Definition trackUsage (tokenCount : Z) (b : base) : base :=
  with_usage {| requests := requests (usage b) + 1;
                tokens := tokens (usage b) + tokenCount;
                lastReset := lastReset (usage b) |} b.

(** [estimateTokens(text)]: [Math.ceil(text.length / 4)] *)
Definition estimateTokens (text : string) : Z :=
  (Z.of_nat (String.length text) + 3) / 4.

(** [safeErrors[key]] as a template literal prints it: one of the six
    texts of the object literal, or the member that [key] names in
    [Object.prototype]; [None] is [undefined]. *)
Definition safeErrors (key : string) : option string :=
  if String.eqb key "ECONNREFUSED" then Some "Connection refused. Is the service running?"
  else if String.eqb key "ETIMEDOUT" then Some "Request timed out. Please try again."
  else if String.eqb key "rate_limit" then Some "Rate limit exceeded. Please wait before retrying."
  else if String.eqb key "401" then Some "Authentication failed. Please check your API key."
  else if String.eqb key "404" then Some "Model not found. Please check the model name."
  else if String.eqb key "500" then Some "Server error. Please try again later."
  else inherited_member key.

(** [formatError(error)], as the template literals of its callers print
    the value it returns. *)
Definition formatError (error : js_error) : string :=
  match err_code error ≫= safeErrors with
  | Some m => m
  | None =>
      match err_status error ≫= safeErrors with
      | Some m => m
      | None => "An error occurred"
      end
  end.

End BaseProvider.

(** ** The bounded cache with expiry *)

Module LRU.

(** Modelled from the spec: the [LRUCache] class that both caches
    instantiate comes from the [lru-cache] package, which is not part of the
    sources.  The model follows the specification's Cache: a bounded mapping
    from key to entry with a fixed TTL; an entry is valid iff
    [now < storedAt + TTL]; [get] returns the value of a valid entry and
    marks it as recently used without refreshing its expiry, and behaves as a
    miss on an expired entry even while that entry is still physically
    present; [set] inserts or fully replaces, updates recency and, when the
    capacity would be exceeded, evicts the least-recently-used entry.
    [items] lists the entries from most to least recently used.  [set] also
    reports the entry it evicted, which is what the package hands to a
    [dispose] callback when one is configured. *)
Record entry : Type := {
  key : string;
  value : string;
  storedAt : Z
}.

Record cache : Type := {
  max : nat;
  ttl : Z;
  items : list entry
}.

(** Modelled from the spec: [new LRUCache({ max, ttl })], an empty cache of
    capacity [max] with the fixed TTL [ttl]. *)
Definition create (max : nat) (ttl : Z) : cache :=
  {| max := max; ttl := ttl; items := [] |}.

(** Modelled from the spec: the same cache holding the entries [l]. *)
Definition with_items (l : list entry) (c : cache) : cache :=
  {| max := max c; ttl := ttl c; items := l |}.

(** Modelled from the spec: an entry is valid iff [now < expiresAt], where
    [expiresAt = storedAt + TTL]. *)
Definition valid (c : cache) (now : Z) (e : entry) : bool :=
  now <? storedAt e + ttl c.

(** Modelled from the spec: the entry stored under [k], if any, and the
    entries stored under other keys. *)
Definition has_key (k : string) (e : entry) : bool := String.eqb (key e) k.

Definition lookup (k : string) (c : cache) : option entry :=
  List.find (has_key k) (items c).

Definition without (k : string) (l : list entry) : list entry :=
  List.filter (fun e => negb (has_key k e)) l.

(** Modelled from the spec: [cache.get(k)] at time [now] gives the value or
    nothing; a valid entry becomes the most recently used one and keeps its
    expiry, an expired entry is a miss and stays where it is. *)
Definition get (now : Z) (k : string) (c : cache) : option string * cache :=
  match lookup k c with
  | Some e =>
      if valid c now e
      then (Some (value e), with_items (e :: without k (items c)) c)
      else (None, c)
  | None => (None, c)
  end.

(** Modelled from the spec: [cache.set(k, v)] at time [now] inserts or
    fully replaces the entry and makes it the most recently used one; a new
    key in a full cache evicts the least recently used entry (the last of
    [items]).  The result is the new cache and the evicted entry. *)
Definition set (now : Z) (k v : string) (c : cache) : cache * option entry :=
  let e := {| key := k; value := v; storedAt := now |} in
  match lookup k c with
  | Some _ => (with_items (e :: without k (items c)) c, None)
  | None =>
      if (max c <=? length (items c))%nat
      then (with_items (e :: removelast (items c)) c, last (items c))
      else (with_items (e :: items c) c, None)
  end.

(** Modelled from the spec: [cache.entries()], the full in-memory set of
    entries as key and value, most recently used first. *)
Definition entries (c : cache) : list (string * string) :=
  map (fun e => (key e, value e)) (items c).

(** Modelled from the spec: [cache.clear()] empties the memory. *)
Definition clear (c : cache) : cache := with_items [] c.

(** Modelled from the spec: [cache.size], the number of entries held. *)
Definition size (c : cache) : nat := length (items c).

End LRU.

(** ** String helpers *)

(** [hay.includes(needle)] *)
Fixpoint includes (needle hay : string) : bool :=
  String.prefix needle hay ||
  match hay with
  | EmptyString => false
  | String _ rest => includes needle rest
  end.

(** [n] copies of a character. *)
Fixpoint repeat_char (c : Ascii.ascii) (n : nat) : string :=
  match n with
  | O => EmptyString
  | S n' => String c (repeat_char c n')
  end.

(** [a || b] on numbers: [undefined] and [0] are falsy. *)
Definition js_or_Z (a : option Z) (b : Z) : Z :=
  match a with
  | Some z => if z =? 0 then b else z
  | None => b
  end.

Definition js_or_Q (a : option Q) (b : Q) : Q :=
  match a with
  | Some q => if Qeq_bool q 0 then b else q
  | None => b
  end.

(** ** The hosted-inference provider ([lib/providers/huggingface.js]) *)

Module HuggingFace.

Record config : Type := {
  cfg_apiKey : option string;
  cfg_cacheDir : option string
}.

(** One tier of [this.models]. *)
Record model_config : Type := {
  id : string;
  maxTokens : Z;
  rateLimit : Z
}.

(** [this.models[tier]] for a [tier] that names no member that every object
    inherits: the own properties of the object literal. *)
Definition models (tier : string) : option model_config :=
  if String.eqb tier "fast" then
    Some {| id := "google/flan-t5-xl"; maxTokens := 512; rateLimit := 5000 |}
  else if String.eqb tier "balanced" then
    Some {| id := "mistralai/Mixtral-8x7B-Instruct-v0.1"; maxTokens := 1024; rateLimit := 2000 |}
  else if String.eqb tier "deep" then
    Some {| id := "meta-llama/Llama-2-70b-chat-hf"; maxTokens := 1500; rateLimit := 500 |}
  else None.

Record cache_stats : Type := {
  hits : Z;
  misses : Z;
  diskReads : Z;
  diskWrites : Z
}.

Record provider : Type := {
  base : BaseProvider.base;
  apiKey : string;
  cacheDir : string;
  cache : LRU.cache;
  cacheStats : cache_stats
}.

(** The [options] argument of [complete]. *)
Record options : Type := {
  modelTier : option string;
  noCache : bool;
  opt_maxTokens : option Z;
  temperature : option Q;
  top_p : option Q
}.

(** The body of the POST request to the inference API. *)
Record request : Type := {
  req_model : string;
  req_apiKey : string;
  inputs : string;
  max_new_tokens : Z;
  req_temperature : Q;
  req_top_p : Q
}.

(** What [fetch] and the reading of the response body produce:
    - [FetchFailed e]: [fetch] rejects, or [response.json()] rejects, or the
      parsed body is not indexable, with the error [e];
    - [NotOk status error]: [response.ok] is false and the body parses to an
      object whose [error] field is [error];
    - [Ok generated_text]: [response.ok] is true and
      [result[0]?.generated_text] is [generated_text]. *)
Inductive response : Type :=
| FetchFailed (e : js_error)
| NotOk (status : Z) (error : option string)
| Ok (generated_text : option string).

(** One record of [cache-data.json]: [{ value, expires }]. *)
Record disk_entry : Type := {
  value : string;
  expires : Z
}.

(** The cache file: absent, present but rejected by [JSON.parse], or a JSON
    object mapping keys to [{ value, expires }] records. *)
Inductive cache_file : Type :=
| NoFile
| Unparsable
| CacheData (data : gmap string disk_entry).

Record world : Type := {
  clock : Z;
  cache_dir_exists : bool;
  file : cache_file;
  net_log : list request
}.

Definition with_file (f : cache_file) (w : world) : world :=
  {| clock := clock w; cache_dir_exists := cache_dir_exists w;
     file := f; net_log := net_log w |}.

Definition with_dir (w : world) : world :=
  {| clock := clock w; cache_dir_exists := true;
     file := file w; net_log := net_log w |}.

Definition log_request (r : request) (w : world) : world :=
  {| clock := clock w; cache_dir_exists := cache_dir_exists w;
     file := file w; net_log := net_log w ++ [r] |}.

(** Time passing between two calls. *)
Definition at_time (t : Z) (w : world) : world :=
  {| clock := t; cache_dir_exists := cache_dir_exists w;
     file := file w; net_log := net_log w |}.

Definition with_base (b : BaseProvider.base) (p : provider) : provider :=
  {| base := b; apiKey := apiKey p; cacheDir := cacheDir p;
     cache := cache p; cacheStats := cacheStats p |}.

Definition with_cache (c : LRU.cache) (p : provider) : provider :=
  {| base := base p; apiKey := apiKey p; cacheDir := cacheDir p;
     cache := c; cacheStats := cacheStats p |}.

Definition with_stats (s : cache_stats) (p : provider) : provider :=
  {| base := base p; apiKey := apiKey p; cacheDir := cacheDir p;
     cache := cache p; cacheStats := s |}.

Definition count_hit (s : cache_stats) : cache_stats :=
  {| hits := hits s + 1; misses := misses s;
     diskReads := diskReads s; diskWrites := diskWrites s |}.

Definition count_miss (s : cache_stats) : cache_stats :=
  {| hits := hits s; misses := misses s + 1;
     diskReads := diskReads s; diskWrites := diskWrites s |}.

Definition count_read (s : cache_stats) : cache_stats :=
  {| hits := hits s; misses := misses s;
     diskReads := diskReads s + 1; diskWrites := diskWrites s |}.

Definition count_write (s : cache_stats) : cache_stats :=
  {| hits := hits s; misses := misses s;
     diskReads := diskReads s; diskWrites := diskWrites s + 1 |}.

(** [1000 * 60 * 60 * 24] *)
Definition TTL : Z := 1000 * 60 * 60 * 24.

(** The object that [getCacheKey] serializes. *)
Record key_params : Type := {
  kp_prompt : string;
  kp_model : string;
  kp_temperature : Q;
  kp_maxTokens : option Z
}.

(** A serializer for closed examples: the fields in order, separated by a
    vertical bar, numbers in decimal, the temperature as numerator and
    denominator. *)
Definition bar_separated (k : key_params) : string :=
  kp_prompt k +:+ "|" +:+ kp_model k +:+ "|"
    +:+ show_Z (Qnum (kp_temperature k)) +:+ "/"
    +:+ show_Z (Zpos (Qden (kp_temperature k))) +:+ "|"
    +:+ from_option show_Z EmptyString (kp_maxTokens k).

(** One value of the object that [JSON.parse] returns for the cache file:
    [null], on which reading [expires] throws; a record [{ value, expires }]
    as the code writes it; or any other value that has no [expires]. *)
Inductive json_record : Type :=
| NullRecord
| OtherValue
| Record (entry : disk_entry).

(** What [fs.readFile] and [JSON.parse] give to [loadPersistentCache]: no
    file; a file that does not parse, or parses to [null], on which
    [Object.entries] throws; or a parsed value with its entries in the
    order of [Object.entries]. *)
Inductive disk_state : Type :=
| Missing
| Corrupt
| Parsed (entries : list (string * json_record)).

(** The disk state of a world.  A world keeps the records of a cache file
    in the documented format as a finite map, that is up to their order;
    [map_to_list] stands for the order of the file. *)
Definition on_disk (f : cache_file) : disk_state :=
  match f with
  | NoFile => Missing
  | Unparsable => Corrupt
  | CacheData data =>
      Parsed ((fun kv => (kv.1, Record kv.2)) <$> map_to_list data)
  end.

Section WithRuntime.

(** [JSON.stringify] on the key object, and the remote API: the answer to
    each request. *)
Context (JSON_stringify : key_params -> string) (fetch : request -> response).

(** One round of the loop of [loadPersistentCache]:
    [if (entry.expires > now) this.cache.set(key, entry.value)]. *)
Definition load_entry (now : Z) (c : LRU.cache) (kv : string * disk_entry) : LRU.cache :=
  if now <? expires kv.2 then (LRU.set now kv.1 (value kv.2) c).1 else c.

(** The loop of [loadPersistentCache] over [Object.entries(cacheData)], in
    that order.  Reading [entry.expires] of [null] throws, and the cache
    keeps what was stored before. *)
Fixpoint load_loop (now : Z) (c : LRU.cache) (entries : list (string * json_record))
    : outcome unit * LRU.cache :=
  match entries with
  | [] => (Returned tt, c)
  | (key, NullRecord) :: _ =>
      (Threw "Cannot read properties of null (reading 'expires')", c)
  | (key, OtherValue) :: rest => load_loop now c rest
  | (key, Record entry) :: rest =>
      load_loop now (load_entry now c (key, entry)) rest
  end.

(** [loadPersistentCache()]: the body of the [try] block, run at time
    [now] on what the disk holds.  [fs.readFile] rejects when there is no
    file, [JSON.parse] throws on an unparsable one, and the loop may throw;
    [diskReads] is counted after the loop. *)
Definition loadPersistentCache_try (disk : disk_state) (now : Z) (p : provider)
    : outcome unit * provider :=
  match disk with
  | Missing => (Threw "ENOENT: no such file or directory", p)
  | Corrupt => (Threw "Unexpected token in JSON", p)
  | Parsed entries =>
      match load_loop now (cache p) entries with
      | (Returned _, c) =>
          (Returned tt, with_stats (count_read (cacheStats p)) (with_cache c p))
      | (Threw message, c) => (Threw message, with_cache c p)
      end
  end.

(** [loadPersistentCache()] on what the disk holds: the [catch] block
    swallows every error. *)
Definition loadPersistentCache_from (disk : disk_state) (now : Z) (p : provider)
    : outcome unit * provider :=
  let '(_, p') := loadPersistentCache_try disk now p in (Returned tt, p').

(** [loadPersistentCache()] in a world. *)
Definition loadPersistentCache (p : provider) (w : world) : outcome unit * provider :=
  loadPersistentCache_from (on_disk (file w)) (clock w) p.

(** One round of the loop of [savePersistentCache]:
    [cacheData[key] = { value, expires: Date.now() + 24 * 60 * 60 * 1000 }]. *)
Definition export_entry (now : Z) (cacheData : gmap string disk_entry)
    (kv : string * string) : gmap string disk_entry :=
  <[kv.1 := {| value := kv.2; expires := now + 24 * 60 * 60 * 1000 |}]> cacheData.

(** The [cacheData] object that [savePersistentCache] builds. *)
Definition export_entries (now : Z) (c : LRU.cache) : gmap string disk_entry :=
  foldl (export_entry now) ∅ (LRU.entries c).

(** [savePersistentCache()]: [fs.writeFile] rejects when the directory is
    missing; the [catch] block logs and swallows that. *)
Definition savePersistentCache (p : provider) (w : world)
    : outcome unit * provider * world :=
  let cacheData := export_entries (clock w) (cache p) in
  if cache_dir_exists w then
    (Returned tt, with_stats (count_write (cacheStats p)) p,
     with_file (CacheData cacheData) w)
  else
    (Returned tt, p, w).

(** [constructor(config)]; [HF_TOKEN] is [process.env.HF_TOKEN] and
    [homedir] is [os.homedir()]. *)
Definition constructor (cfg : config) (HF_TOKEN : option string) (homedir : string)
    (w : world) : outcome provider :=
  let apiKey := js_or (cfg_apiKey cfg) HF_TOKEN in
  if negb (truthy_opt apiKey) then
    Threw "HuggingFace API key not found. Set HF_TOKEN environment variable."
  else
    let p := {| base := BaseProvider.constructor "huggingface" (clock w);
                apiKey := default EmptyString apiKey;
                cacheDir := default (homedir +:+ "/.cache/claude-enhancer")
                                    (js_or (cfg_cacheDir cfg) None);
                cache := LRU.create 1000 TTL;
                cacheStats := {| hits := 0; misses := 0; diskReads := 0; diskWrites := 0 |} |} in
    (* this.loadPersistentCache().catch(() => {}) *)
    Returned (loadPersistentCache p w).2.

(** [initialize()] *)
Definition initialize (p : provider) (w : world) : outcome bool * world :=
  if negb (String.prefix "hf_" (apiKey p)) || (String.length (apiKey p) <? 20)%nat then
    (Threw "Invalid HuggingFace API key format", w)
  else
    (Returned true, with_dir w).

(** [getCacheKey(prompt, model, options)] *)
Definition getCacheKey (prompt model : string) (o : options) : string :=
  JSON_stringify
    {| kp_prompt := String.substring 0 100 prompt;
       kp_model := model;
       kp_temperature := js_or_Q (temperature o) (7 # 10);
       kp_maxTokens := opt_maxTokens o |}.

Definition unknown_tier_message (tier : string) : string :=
  "Unknown model tier: " +:+ tier +:+ ". Use 'fast', 'balanced', or 'deep'".

(** The [catch] block of [complete]. *)
Definition complete_catch (error : js_error) : string :=
  if includes "Rate limit" (err_message error)
  then "Rate limit exceeded. Please wait before retrying."
  else "HuggingFace API error: " +:+ BaseProvider.formatError error.

(** The two statements of [complete] that store a fresh response:
    [this.cache.set(cacheKey, generatedText); this.savePersistentCache()]. *)
Definition store_response (cacheKey generatedText : string) (p : provider) (w : world)
    : provider * world :=
  let p3 := with_cache (LRU.set (clock w) cacheKey generatedText (cache p)).1 p in
  let '(_, p4, w2) := savePersistentCache p3 w in
  (p4, w2).

(** [options.modelTier || 'balanced'] *)
Definition selected_tier (o : options) : string :=
  default "balanced" (js_or (modelTier o) None).

(** The [requestBody] of [complete], with the model id of the URL and the
    credential of the [Authorization] header. *)
Definition requestBody (prompt : string) (o : options) (p : provider)
    (model : model_config) : request :=
  {| req_model := id model;
     req_apiKey := apiKey p;
     inputs := prompt;
     max_new_tokens := js_or_Z (opt_maxTokens o) (maxTokens model);
     req_temperature := js_or_Q (temperature o) (7 # 10);
     req_top_p := js_or_Q (top_p o) (9 # 10) |}.

(** [result[0]?.generated_text || ''] *)
Definition generatedText (generated_text : option string) : string :=
  default EmptyString (js_or generated_text None).

(** [complete(prompt, options)] *)
Definition complete (prompt : string) (o : options) (p : provider) (w : world)
    : outcome string * provider * world :=
  let modelTier := selected_tier o in
  match models modelTier with
  | None => (Threw (unknown_tier_message modelTier), p, w)
  | Some model =>
      let cacheKey := getCacheKey prompt (id model) o in
      let (cached, c1) := LRU.get (clock w) cacheKey (cache p) in
      let p1 := with_cache c1 p in
      if truthy_opt cached && negb (noCache o) then
        (Returned (default EmptyString cached),
         with_stats (count_hit (cacheStats p1)) p1, w)
      else
        let p2 := with_stats (count_miss (cacheStats p1)) p1 in
        let w1 := log_request (requestBody prompt o p model) w in
        match fetch (requestBody prompt o p model) with
        | FetchFailed e => (Threw (complete_catch e), p2, w1)
        | NotOk status error =>
            let message :=
              if truthy_opt error then default EmptyString error
              else "API error: " +:+ show_Z status in
            (Threw (complete_catch (new_Error message)), p2, w1)
        | Ok generated_text =>
            let '(p4, w2) :=
              store_response cacheKey (generatedText generated_text) p2 w1 in
            let tokens := BaseProvider.estimateTokens prompt
                          + BaseProvider.estimateTokens (generatedText generated_text) in
            (Returned (generatedText generated_text),
             with_base (BaseProvider.trackUsage tokens (base p4)) p4, w2)
        end
  end.

(** [clearCache()] *)
Definition clearCache (p : provider) (w : world) : string * provider * world :=
  ("Cache cleared successfully",
   with_stats {| hits := 0; misses := 0; diskReads := 0; diskWrites := 0 |}
     (with_cache (LRU.clear (cache p)) p),
   with_file NoFile w).

End WithRuntime.

(** *** Vocabulary for the statements about the cache file *)

(** A record that [loadPersistentCache] accepts at time [now]. *)
Definition live (now : Z) (kv : string * disk_entry) : Prop := now < expires kv.2.

Global Instance live_dec now kv : Decision (live now kv) := Z.lt_dec _ _.


(** The cache entry that [loadPersistentCache] stores for a record at time
    [now]. *)
Definition stored (now : Z) (kv : string * disk_entry) : LRU.entry :=
  {| LRU.key := kv.1; LRU.value := value kv.2; LRU.storedAt := now |}.

(** The records that the loop of [loadPersistentCache] reads: the records
    in the documented format that precede the first [null]. *)
Fixpoint readable (entries : list (string * json_record))
    : list (string * disk_entry) :=
  match entries with
  | [] => []
  | (key, NullRecord) :: _ => []
  | (key, OtherValue) :: rest => readable rest
  | (key, Record entry) :: rest => (key, entry) :: readable rest
  end.



End HuggingFace.

(** ** The local-inference provider (class [OllamaProvider]) *)

Module Ollama.

Record config : Type := {
  cfg_baseUrl : option string;
  cfg_defaultModel : option string;
  cfg_timeout : option Z
}.

Record provider : Type := {
  base : BaseProvider.base;
  baseUrl : string;
  defaultModel : string;
  timeout : Z;
  availableModels : option (list string) (* the ids of the cached model list *)
}.

(** The [options] argument of [complete]; [autoPull] is [undefined]
    ([None]), [true] or [false]. *)
Record options : Type := {
  model : option string;
  autoPull : option bool;
  stream : bool;
  temperature : option Q;
  top_p : option Q;
  top_k : option Z;
  max_tokens : option Z;
  stop : option string;
  seed : option Z;
  system : option string
}.

(** The body of a POST to [/api/generate]. *)
Record generate_body : Type := {
  gen_model : string;
  gen_prompt : string;
  gen_stream : bool;
  gen_temperature : Q;
  gen_top_p : Q;
  gen_top_k : Z;
  gen_num_predict : Z;
  gen_stop : option string;
  gen_seed : option Z;
  gen_system : option string
}.

(** The requests the provider sends to the daemon. *)
Inductive request : Type :=
| GetVersion
| GetTags
| PostPull (name : string)
| PostGenerate (body : generate_body).

(** The daemon's answer to [GET /api/tags]: the request or the decoding of
    its body fails with [e]; the status is not ok; or the body lists the
    installed models (their names). *)
Inductive tags_response : Type :=
| TagsFailed (e : js_error)
| TagsNotOk (status : Z)
| TagsOk (names : list string).

(** The answer to [POST /api/pull]: failure of the request or of reading the
    stream, a status that is not ok, or a stream read to its end. *)
Inductive pull_response : Type :=
| PullFailed (e : js_error)
| PullNotOk (status : Z)
| PullDone.

(** The answer to [POST /api/generate]: failure of the request or of
    decoding the body, a status that is not ok with the body's text, or a
    body whose [response] field is [text]. *)
Inductive generate_response : Type :=
| GenerateFailed (e : js_error)
| GenerateNotOk (text : string)
| GenerateOk (text : option string).

(** What [complete] returns: the generated text, or the response body when
    streaming was asked for. *)
Inductive completion : Type :=
| Text (s : string)
| StreamBody.

Record world : Type := {
  clock : Z;
  net_log : list request
}.

Definition log_request (r : request) (w : world) : world :=
  {| clock := clock w; net_log := net_log w ++ [r] |}.

Definition with_base (b : BaseProvider.base) (p : provider) : provider :=
  {| base := b; baseUrl := baseUrl p; defaultModel := defaultModel p;
     timeout := timeout p; availableModels := availableModels p |}.

Definition with_availableModels (l : list string) (p : provider) : provider :=
  {| base := base p; baseUrl := baseUrl p; defaultModel := defaultModel p;
     timeout := timeout p; availableModels := Some l |}.

(** [constructor(config)]; the two environment variables are
    [OLLAMA_BASE_URL] and [OLLAMA_DEFAULT_MODEL]. *)
Definition constructor (cfg : config) (OLLAMA_BASE_URL OLLAMA_DEFAULT_MODEL : option string)
    (now : Z) : provider :=
  {| base := BaseProvider.with_rateLimits
               {| BaseProvider.requestsPerHour := 10000;
                  BaseProvider.requestsPerMinute := 1000;
                  BaseProvider.tokensPerMinute := 100000 |}
               (BaseProvider.constructor "ollama" now);
     baseUrl := default "http://localhost:11434"
                  (js_or (js_or (cfg_baseUrl cfg) OLLAMA_BASE_URL) None);
     defaultModel := default "llama3.2:1b"
                  (js_or (js_or (cfg_defaultModel cfg) OLLAMA_DEFAULT_MODEL) None);
     timeout := js_or_Z (cfg_timeout cfg) 120000;
     availableModels := None |}.

(** [preferences[mode] || preferences.balanced] in [getBestModelForMode]:
    the list of the mode, the balanced list for a mode that names nothing,
    and [None] for a mode that names a member that every object inherits:
    such a member is truthy but cannot be iterated. *)
Definition preferences (mode : string) : option (list string) :=
  if String.eqb mode "coding" then
    Some ["codellama"; "deepseek-coder"; "codegemma"; "starcoder"; "llama3.2"; "llama3"; "llama2"; "mistral"]
  else if String.eqb mode "ultrathink" then
    Some ["llama3.2:3b"; "llama3:8b"; "llama2:13b"; "llama2:7b"; "mistral"; "neural-chat"]
  else if String.eqb mode "creative" then
    Some ["neural-chat"; "llama3.2"; "llama3"; "mistral"; "llama2"]
  else if String.eqb mode "analysis" then
    Some ["mistral"; "llama3.2"; "llama3"; "llama2"; "mixtral"]
  else
    match inherited_member mode with
    | Some _ => None
    | None => Some ["llama3.2"; "llama3"; "llama2"; "mistral"; "neural-chat"]
    end.

Definition model_not_found_message (model : string) : string :=
  "Model " +:+ model +:+ " not found. Use --pull to download it.".

Section WithDaemon.

(** The daemon: its answer to each kind of request. *)
Context (tags : tags_response) (pull : string -> pull_response)
        (generate : generate_body -> generate_response).

(** [listModels()]: the ids of the models the daemon lists. *)
Definition listModels (w : world) : outcome (list string) * world :=
  let w1 := log_request GetTags w in
  match tags with
  | TagsFailed e =>
      (Threw ("Failed to list models: " +:+ BaseProvider.formatError e), w1)
  | TagsNotOk status =>
      (Threw ("Failed to list models: " +:+ BaseProvider.formatError
                (new_Error ("Failed to list models: " +:+ show_Z status))), w1)
  | TagsOk names => (Returned names, w1)
  end.

(** [pullModel(modelName)] *)
Definition pullModel (modelName : string) (w : world) : outcome bool * world :=
  let w1 := log_request (PostPull modelName) w in
  match pull modelName with
  | PullFailed e =>
      (Threw ("Failed to pull model: " +:+ BaseProvider.formatError e), w1)
  | PullNotOk status =>
      (Threw ("Failed to pull model: " +:+ BaseProvider.formatError
                (new_Error ("Failed to pull model: " +:+ show_Z status))), w1)
  | PullDone => (Returned true, w1)
  end.

(** [getBestModelForMode(mode)] *)
Definition getBestModelForMode (mode : string) (p : provider) (w : world)
    : string * provider * world :=
  let '(listed, p1, w1) :=
    match availableModels p with
    | Some l => (Returned l, p, w)
    | None =>
        match listModels w with
        | (Returned l, w') => (Returned l, with_availableModels l p, w')
        | (Threw m, w') => (Threw m, p, w')
        end
    end in
  match listed with
  | Threw _ => (defaultModel p1, p1, w1)
  | Returned [] => (defaultModel p1, p1, w1)
  | Returned ((first :: _) as modelNames) =>
      match preferences mode with
      | Some modePrefs =>
          let matches :=
            omap (fun pref => List.find (String.prefix pref) modelNames)
                 modePrefs in
          (List.hd first matches, p1, w1)
      | None => (defaultModel p1, p1, w1) (* [for...of] throws; the [catch] block *)
      end
  end.

(** The block of [complete] that makes sure the model is installed:
    [if (!modelExists) { ... }]. *)
Definition ensure_model (model : string) (o : options) (models : list string)
    (w : world) : outcome bool * world :=
  let modelExists := existsb (String.eqb model) models in
  if modelExists then (Returned true, w)
  else
    let shouldPull := negb (bool_decide (autoPull o = Some false)) in
    if shouldPull then pullModel model w
    else (Threw (model_not_found_message model), w).

(** The [requestBody] of [complete]. *)
Definition requestBody (model prompt : string) (o : options) : generate_body :=
  {| gen_model := model;
     gen_prompt := prompt;
     gen_stream := stream o;
     gen_temperature := js_or_Q (temperature o) (7 # 10);
     gen_top_p := js_or_Q (top_p o) (9 # 10);
     gen_top_k := js_or_Z (top_k o) 40;
     gen_num_predict := js_or_Z (max_tokens o) 2048;
     gen_stop := js_or (stop o) None;
     gen_seed := seed o ≫= (fun z => if z =? 0 then None else Some z);
     gen_system := js_or (system o) None |}.

(** The [try] block of [complete] with its [catch]. *)
Definition generate_text (model prompt : string) (o : options) (p : provider)
    (w : world) : outcome completion * provider * world :=
  let w1 := log_request (PostGenerate (requestBody model prompt o)) w in
  let failed e :=
    Threw ("Ollama completion failed: " +:+ BaseProvider.formatError e) in
  match generate (requestBody model prompt o) with
  | GenerateFailed e => (failed e, p, w1)
  | GenerateNotOk text =>
      (failed (new_Error ("Ollama API error: " +:+ text)), p, w1)
  | GenerateOk text =>
      if stream o then (Returned StreamBody, p, w1)
      else
        match text with
        | None =>
            (failed (new_Error "Cannot read properties of undefined (reading 'length')"),
             p, w1)
        | Some response =>
            let tokens := BaseProvider.estimateTokens prompt
                          + BaseProvider.estimateTokens response in
            (Returned (Text response),
             with_base (BaseProvider.trackUsage tokens (base p)) p, w1)
        end
  end.

(** [complete(prompt, options)] *)
Definition complete (prompt : string) (o : options) (p : provider) (w : world)
    : outcome completion * provider * world :=
  let '(model, p0, w0) :=
    if truthy_opt (model o) then (default EmptyString (model o), p, w)
    else if truthy (defaultModel p) then (defaultModel p, p, w)
    else getBestModelForMode "balanced" p w in
  match BaseProvider.checkRateLimits (clock w0) (base p0) with
  | (Threw m, b) => (Threw m, with_base b p0, w0)
  | (Returned _, b) =>
      let p1 := with_base b p0 in
      match listModels w0 with
      | (Threw m, w1) => (Threw m, p1, w1)
      | (Returned models, w1) =>
          match ensure_model model o models w1 with
          | (Threw m, w2) => (Threw m, p1, w2)
          | (Returned _, w2) => generate_text model prompt o p1 w2
          end
      end
  end.

End WithDaemon.

(** The model a call names without asking the daemon:
    [options.model || this.defaultModel], when one of them is set. *)
Definition named_model (o : options) (p : provider) : option string :=
  if truthy_opt (model o) then model o
  else if truthy (defaultModel p) then Some (defaultModel p)
  else None.

End Ollama.

(** ** Sample data for the closed examples *)

Module Samples.

(** The scenario of the specification: "alpha" always throws, "beta" always
    returns.  A provider object is represented by its class name and the
    world is the list of providers called so far. *)
Definition new_provider (cls : string) : outcome string :=
  if String.eqb cls "Broken" then Threw "missing credential" else Returned cls.

Definition alpha_beta : Registry.registry string :=
  (Registry.setDefaultProvider "alpha"
     (Registry.registerProvider "beta" new_provider "Beta"
        (Registry.registerProvider "broken" new_provider "Broken"
           (Registry.registerProvider "alpha" new_provider "Alpha"
              Registry.empty_registry)))).2.

Definition call (provider : option string) (w : list string)
    : outcome string * list string :=
  match provider with
  | Some cls =>
      if String.eqb cls "Beta" then (Returned "OK-beta", w ++ [cls])
      else (Threw "ConnectionRefused", w ++ [cls])
  | None => (Threw "no provider", w)
  end.

(** An operation that throws on every provider, and a registry whose only
    provider is registered under the empty name. *)
Definition refuse (provider : option string) (w : list string)
    : outcome string * list string :=
  match provider with
  | Some cls => (Threw ("ECONNREFUSED " +:+ cls), w ++ [cls])
  | None => (Threw "no provider", w)
  end.

Definition unnamed : Registry.registry string :=
  Registry.registerProvider EmptyString new_provider "Beta" Registry.empty_registry.

(** A well-formed credential: the prefix and twenty more characters. *)
Definition good_key : string := "hf_" +:+ repeat_char "x"%char 20.

Definition no_options : HuggingFace.options :=
  {| HuggingFace.modelTier := None;
     HuggingFace.noCache := false;
     HuggingFace.opt_maxTokens := None;
     HuggingFace.temperature := None;
     HuggingFace.top_p := None |}.

(** A disk with one live and one expired record, at clock 1000000. *)
Definition two_records : gmap string HuggingFace.disk_entry :=
  <["old" := {| HuggingFace.value := "stale answer"; HuggingFace.expires := 500 |}]>
    (<["new" := {| HuggingFace.value := "fresh answer"; HuggingFace.expires := 2000000 |}]> ∅).

Definition disk_world : HuggingFace.world :=
  {| HuggingFace.clock := 1000000;
     HuggingFace.cache_dir_exists := true;
     HuggingFace.file := HuggingFace.CacheData two_records;
     HuggingFace.net_log := [] |}.

Definition bare_world : HuggingFace.world :=
  {| HuggingFace.clock := 1000000;
     HuggingFace.cache_dir_exists := true;
     HuggingFace.file := HuggingFace.NoFile;
     HuggingFace.net_log := [] |}.

(** The same two records as [JSON.parse] lists them, and a file in which
    a [null] precedes a live record. *)
Definition two_entries : list (string * HuggingFace.json_record) :=
  [("old", HuggingFace.Record
             {| HuggingFace.value := "stale answer"; HuggingFace.expires := 500 |});
   ("new", HuggingFace.Record
             {| HuggingFace.value := "fresh answer"; HuggingFace.expires := 2000000 |})].

Definition null_then_fresh : list (string * HuggingFace.json_record) :=
  [("broken", HuggingFace.NullRecord);
   ("new", HuggingFace.Record
             {| HuggingFace.value := "fresh answer"; HuggingFace.expires := 2000000 |})].

(** A machine on which the cache directory was never created: saving the
    cache fails there, silently. *)
Definition no_dir_world : HuggingFace.world :=
  {| HuggingFace.clock := 1000000;
     HuggingFace.cache_dir_exists := false;
     HuggingFace.file := HuggingFace.NoFile;
     HuggingFace.net_log := [] |}.

(** The fields a successful [new HuggingFaceProvider({ apiKey })] sets before
    it loads the cache file. *)
Definition blank_provider (apiKey : string) (now : Z) : HuggingFace.provider :=
  {| HuggingFace.base := BaseProvider.constructor "huggingface" now;
     HuggingFace.apiKey := apiKey;
     HuggingFace.cacheDir := "/home/user/.cache/claude-enhancer";
     HuggingFace.cache := LRU.create 1000 HuggingFace.TTL;
     HuggingFace.cacheStats :=
       {| HuggingFace.hits := 0; HuggingFace.misses := 0;
          HuggingFace.diskReads := 0; HuggingFace.diskWrites := 0 |} |}.


(** An API that answers every request with the same text, and one that
    answers with an empty generation. *)
Definition fetch_text (r : HuggingFace.request) : HuggingFace.response :=
  HuggingFace.Ok (Some "generated").


(** A provider that has used up its hourly budget of 1000 requests. *)
Definition exhausted_provider : HuggingFace.provider :=
  HuggingFace.with_base
    (BaseProvider.with_usage
       {| BaseProvider.requests := 1000; BaseProvider.tokens := 50000;
          BaseProvider.lastReset := 1000000 |}
       (BaseProvider.constructor "huggingface" 1000000))
    (blank_provider good_key 1000000).

(** A cache filled to its capacity of 1000: keys "0" (most recently used)
    to "999" (least recently used). *)
Definition numbered (i : nat) : LRU.entry :=
  {| LRU.key := show_Z (Z.of_nat i); LRU.value := "answer"; LRU.storedAt := 900000 |}.

Definition full_provider : HuggingFace.provider :=
  HuggingFace.with_cache
    (LRU.with_items (map numbered (seq 0 1000)) (LRU.create 1000 HuggingFace.TTL))
    (blank_provider good_key 900000).

(** A local provider built with no configuration and no environment. *)
Definition local_provider : Ollama.provider :=
  Ollama.constructor
    {| Ollama.cfg_baseUrl := None; Ollama.cfg_defaultModel := None;
       Ollama.cfg_timeout := None |} None None 1000000.

Definition local_world : Ollama.world :=
  {| Ollama.clock := 1000000; Ollama.net_log := [] |}.


(** A daemon with one installed model, on which pulls and generations
    succeed. *)
Definition installed : list string := ["llama3.2:1b"].

Definition pull_ok (name : string) : Ollama.pull_response := Ollama.PullDone.

Definition generate_ok (body : Ollama.generate_body) : Ollama.generate_response :=
  Ollama.GenerateOk (Some "done").

End Samples.


(** ** The registry's queries ([lib/providers/registry.js]) *)

Module RegistryQueries.
Import Registry.

Section WithProvider.

(** Provider objects, the models a provider lists, and the world the
    probes run in.  [class_name] is [provider.constructor.name];
    [initialize] and [listModels] are the providers' methods. *)
Context {Provider Model World : Type}.
Context (class_name : Provider -> string)
        (initialize : Provider -> World -> outcome bool * World)
        (listModels : Provider -> World -> outcome (list Model) * World).

(** One element of the array that [listProviders] returns. *)
Record provider_info : Type := {
  info_name : string;
  info_type : string;
  info_available : bool;
  info_default : bool
}.

(** [listProviders()] *)
Definition listProviders (reg : registry Provider) : list provider_info :=
  map (fun e => {| info_name := e.1;
                   info_type := class_name e.2;
                   info_available := true;
                   info_default := is_preferred e.1 (defaultProvider reg) |})
      (providers reg).

(** One value of the object that [checkHealth] returns:
    [{ status: 'healthy', models, default }] or
    [{ status: 'unhealthy', error, default }]. *)
Inductive health_report : Type :=
| Healthy (models : nat) (is_default : bool)
| Unhealthy (error : string) (is_default : bool).

(** The body of the loop of [checkHealth]: the [try] block and its
    [catch]. *)
Definition probe (reg : registry Provider) (name : string) (provider : Provider)
    (w : World) : health_report * World :=
  let is_default := is_preferred name (defaultProvider reg) in
  match initialize provider w with
  | (Threw msg, w1) => (Unhealthy msg is_default, w1)
  | (Returned _, w1) =>
      match listModels provider w1 with
      | (Returned models, w2) => (Healthy (length models) is_default, w2)
      | (Threw msg, w2) => (Unhealthy msg is_default, w2)
      end
  end.

(** The loop of [checkHealth], filling the object [health] by
    [health[name] = ...]. *)
Fixpoint checkHealth_loop (reg : registry Provider) (rest : js_map Provider)
    (health : JsObject.js_object health_report) (w : World)
    : JsObject.js_object health_report * World :=
  match rest with
  | [] => (health, w)
  | (name, provider) :: rest' =>
      let '(report, w1) := probe reg name provider w in
      checkHealth_loop reg rest' (JsObject.object_set name report health) w1
  end.

(** [checkHealth()] *)
Definition checkHealth (reg : registry Provider) (w : World)
    : JsObject.js_object health_report * World :=
  checkHealth_loop reg (providers reg) [] w.

(** [status.status === 'healthy'] *)
Definition is_healthy (r : health_report) : bool :=
  match r with Healthy _ _ => true | Unhealthy _ _ => false end.

Definition report_default (r : health_report) : bool :=
  match r with Healthy _ d => d | Unhealthy _ d => d end.

End WithProvider.

End RegistryQueries.

(** ** More sample data *)

Module MoreSamples.

(** Probes for the sample registry, whose providers are represented by
    their class names: "Alpha" cannot be reached, the others list two
    models.  The world records the probes made. *)
Definition class_of (provider : string) : string := provider.


Definition init_probe (provider : string) (w : list string)
    : outcome bool * list string :=
  if String.eqb provider "Alpha"
  then (Threw "Connection refused", w ++ ["initialize " +:+ provider])
  else (Returned true, w ++ ["initialize " +:+ provider]).

Definition list_probe (provider : string) (w : list string)
    : outcome (list string) * list string :=
  (Returned ["small"; "large"], w ++ ["listModels " +:+ provider]).


(** A remote end that rejects the credential, and a network that refuses
    the connection. *)
Definition fetch_unauthorized (r : HuggingFace.request) : HuggingFace.response :=
  HuggingFace.NotOk 401 (Some "Invalid credentials in Authorization header").

Definition fetch_refused (r : HuggingFace.request) : HuggingFace.response :=
  HuggingFace.FetchFailed
    {| err_message := "connect ECONNREFUSED"; err_code := Some "ECONNREFUSED";
       err_status := None |}.

(** The model of the default tier. *)
Definition balanced_model : HuggingFace.model_config :=
  {| HuggingFace.id := "mistralai/Mixtral-8x7B-Instruct-v0.1";
     HuggingFace.maxTokens := 1024; HuggingFace.rateLimit := 2000 |}.


(** [{ noCache: true }] *)
Definition fresh_options : HuggingFace.options :=
  {| HuggingFace.modelTier := None;
     HuggingFace.noCache := true;
     HuggingFace.opt_maxTokens := None;
     HuggingFace.temperature := None;
     HuggingFace.top_p := None |}.





(** Options that name no model, and options that ask for a temperature of
    0.1. *)
Definition ask_default : Ollama.options :=
  {| Ollama.model := None; Ollama.autoPull := Some true;
     Ollama.stream := false; Ollama.temperature := None; Ollama.top_p := None;
     Ollama.top_k := None; Ollama.max_tokens := None; Ollama.stop := None;
     Ollama.seed := None; Ollama.system := None |}.

Definition ask_cold : Ollama.options :=
  {| Ollama.model := None; Ollama.autoPull := None;
     Ollama.stream := false; Ollama.temperature := Some (1 # 10);
     Ollama.top_p := None; Ollama.top_k := None; Ollama.max_tokens := None;
     Ollama.stop := None; Ollama.seed := None; Ollama.system := None |}.

(** A local provider that has used up its hourly budget, and one that has
    already listed the installed models. *)
Definition spent_provider : Ollama.provider :=
  Ollama.with_base
    (BaseProvider.with_usage
       {| BaseProvider.requests := 10000; BaseProvider.tokens := 0;
          BaseProvider.lastReset := 1000000 |}
       (Ollama.base Samples.local_provider))
    Samples.local_provider.

Definition listed_provider : Ollama.provider :=
  Ollama.with_availableModels Samples.installed Samples.local_provider.

(** A local provider that knows of one installed model, which is not its
    default model. *)
Definition mistral_only : Ollama.provider :=
  Ollama.with_availableModels ["mistral:7b"] Samples.local_provider.

End MoreSamples.

(** ** More of the provider contract ([lib/providers/base-provider.js]) *)

Module BaseProviderMore.

(** [prompts[mode]] in [getSystemPromptForMode], as a template literal
    prints it: the text of the mode, or the member that [mode] names in
    [Object.prototype]; [None] is [undefined]. *)
Definition prompts (mode : string) : option string :=
  if String.eqb mode "balanced" then
    Some "Enhance this prompt to be clear, structured, and comprehensive."
  else if String.eqb mode "ultrathink" then
    Some "Transform this into a deep reasoning prompt with metacognitive elements."
  else if String.eqb mode "coding" then
    Some "Optimize this prompt for programming tasks with clear specifications."
  else if String.eqb mode "analysis" then
    Some "Structure this prompt for systematic analysis with evidence-based reasoning."
  else if String.eqb mode "creative" then
    Some "Enhance this prompt for maximum creativity and originality."
  else inherited_member mode.

(** [getSystemPromptForMode(mode)]: [prompts[mode] || prompts.balanced], as
    the template literal of [enhance] prints it. *)
Definition getSystemPromptForMode (mode : string) : string :=
  default "Enhance this prompt to be clear, structured, and comprehensive."
          (prompts mode).

(** The [fullPrompt] that [enhance] hands to [complete]. *)
Definition fullPrompt (prompt mode : string) : string :=
  getSystemPromptForMode mode +:+ newline +:+ newline +:+ "User prompt: "
    +:+ prompt +:+ newline +:+ newline +:+ "Enhanced prompt:".

End BaseProviderMore.

(** ** More of the hosted-inference provider ([lib/providers/huggingface.js]) *)

Module HuggingFaceMore.
Import HuggingFace.

(** One element of the array that [listModels] returns. *)
Record model_info : Type := {
  mi_id : string;
  mi_name : string;
  mi_tier : string;
  mi_maxTokens : Z;
  mi_rateLimit : Z
}.

(** The keys of [this.models], in the order of the object literal. *)
Definition tiers : list string := ["fast"; "balanced"; "deep"].

(** [Object.entries(this.models)] *)
Definition models_entries : list (string * model_config) :=
  omap (fun tier => (fun config => (tier, config)) <$> models tier) tiers.

(** [listModels()] *)
Definition listModels : list model_info :=
  (fun tc : string * model_config =>
     {| mi_id := id tc.2;
        mi_name := tc.1 +:+ " (" +:+ id tc.2 +:+ ")";
        mi_tier := tc.1;
        mi_maxTokens := maxTokens tc.2;
        mi_rateLimit := rateLimit tc.2 |}) <$> models_entries.

(** [isModelAvailable(modelId)], inherited from the base class. *)
Definition isModelAvailable (modelId : string) : bool :=
  existsb (fun m => String.eqb (mi_id m) modelId) listModels.

Section WithRuntime.

Context (JSON_stringify : key_params -> string) (fetch : request -> response).

(** [enhance(prompt, mode, options)], inherited from the base class. *)
Definition enhance (prompt mode : string) (o : options) (p : provider) (w : world)
    : outcome string * provider * world :=
  complete JSON_stringify fetch (BaseProviderMore.fullPrompt prompt mode) o p w.

(** One value of the object that [checkModels] returns. *)
Inductive model_report : Type :=
| Available (model : string) (responseTime : Z)
| Unavailable (model : string) (error : string) (suggestion : string).

(** A report of [checkModels] that does not blame the credential. *)
Definition blames_subscription (r : string * model_report) : Prop :=
  match r.2 with
  | Available _ _ => True
  | Unavailable _ _ suggestion => suggestion = "Model may require Pro subscription"
  end.

(** [{ modelTier: tier, maxTokens: 10 }] *)
Definition test_options (tier : string) : options :=
  {| modelTier := Some tier; noCache := false; opt_maxTokens := Some 10;
     temperature := None; top_p := None |}.

(** One round of the loop of [checkModels]. *)
Definition checkModels_round
    (acc : list (string * model_report) * provider * world)
    (tc : string * model_config)
    : list (string * model_report) * provider * world :=
  let '(results, p, w) := acc in
  let startTime := clock w in
  match complete JSON_stringify fetch "Test" (test_options tc.1) p w with
  | (Returned _, p', w') =>
      (results ++ [(tc.1, Available (id tc.2) (clock w' - startTime))], p', w')
  | (Threw message, p', w') =>
      (results ++
         [(tc.1, Unavailable (id tc.2) message
                   (if includes "401" message then "Check your HF_TOKEN"
                    else "Model may require Pro subscription"))],
       p', w')
  end.

(** [checkModels()]: the reports in the order of the tiers. *)
Definition checkModels (p : provider) (w : world)
    : list (string * model_report) * provider * world :=
  foldl checkModels_round ([], p, w) models_entries.

End WithRuntime.

End HuggingFaceMore.

(** ** More of the local-inference provider (class [OllamaProvider]) *)

Module OllamaMore.
Import Ollama.

(** [enhancementPrompts[mode]] in [enhance] for a [mode] that names no
    member that every object inherits: the own properties of the object
    literal. *)
Definition enhancementPrompts (prompt mode : string) : option string :=
  if String.eqb mode "balanced" then
    Some ("You are a helpful AI assistant. Please enhance the following prompt to be more clear, structured, and comprehensive. Provide specific details and context where appropriate."
          +:+ newline +:+ newline +:+ "Original prompt: " +:+ prompt
          +:+ newline +:+ newline +:+ "Enhanced prompt:")
  else if String.eqb mode "ultrathink" then
    Some ("You are an AI that excels at deep, systematic thinking. Transform the following prompt into a comprehensive reasoning framework that includes:"
          +:+ newline +:+ "1. Problem decomposition"
          +:+ newline +:+ "2. Step-by-step analysis"
          +:+ newline +:+ "3. Critical assumptions to examine"
          +:+ newline +:+ "4. Alternative perspectives to consider"
          +:+ newline +:+ "5. Validation methods"
          +:+ newline +:+ newline +:+ "Original prompt: " +:+ prompt
          +:+ newline +:+ newline +:+ "Enhanced prompt with deep reasoning framework:")
  else if String.eqb mode "coding" then
    Some ("You are an expert programming assistant. Enhance the following coding request with:"
          +:+ newline +:+ "1. Clear technical specifications"
          +:+ newline +:+ "2. Input/output examples"
          +:+ newline +:+ "3. Edge cases to consider"
          +:+ newline +:+ "4. Performance requirements"
          +:+ newline +:+ "5. Best practices to follow"
          +:+ newline +:+ newline +:+ "Original prompt: " +:+ prompt
          +:+ newline +:+ newline +:+ "Enhanced technical prompt:")
  else if String.eqb mode "analysis" then
    Some ("You are an analytical AI. Structure the following request for systematic analysis including:"
          +:+ newline +:+ "1. Scope and boundaries"
          +:+ newline +:+ "2. Data requirements"
          +:+ newline +:+ "3. Analytical framework"
          +:+ newline +:+ "4. Evidence criteria"
          +:+ newline +:+ "5. Expected deliverables"
          +:+ newline +:+ newline +:+ "Original prompt: " +:+ prompt
          +:+ newline +:+ newline +:+ "Enhanced analytical prompt:")
  else if String.eqb mode "creative" then
    Some ("You are a creative AI assistant. Enhance the following creative request to maximize originality and impact:"
          +:+ newline +:+ "1. Expand the creative vision"
          +:+ newline +:+ "2. Add sensory details and atmosphere"
          +:+ newline +:+ "3. Suggest unconventional approaches"
          +:+ newline +:+ "4. Include emotional resonance"
          +:+ newline +:+ "5. Push boundaries while maintaining coherence"
          +:+ newline +:+ newline +:+ "Original prompt: " +:+ prompt
          +:+ newline +:+ newline +:+ "Enhanced creative prompt:")
  else None.

(** The options that [enhance] hands to [complete]:
    [{ ...options, model, system, temperature, max_tokens }]. *)
Definition enhance_options (mode model : string) (o : options) : options :=
  {| model := Some model;
     autoPull := autoPull o;
     stream := stream o;
     temperature := Some (if String.eqb mode "creative" then 9 # 10 else 7 # 10);
     top_p := top_p o;
     top_k := top_k o;
     max_tokens := Some (js_or_Z (max_tokens o) 2048);
     stop := stop o;
     seed := seed o;
     system := Some (default
                       "You are a helpful AI assistant specialized in prompt enhancement."
                       (js_or (system o) None)) |}.

Section WithDaemon.

Context (tags : tags_response) (pull : string -> pull_response)
        (generate : generate_body -> generate_response).

(** [enhance(prompt, mode, options)] *)
Definition enhance (prompt mode : string) (o : options) (p : provider) (w : world)
    : outcome completion * provider * world :=
  let enhancementPrompt :=
    default (default EmptyString (enhancementPrompts prompt "balanced"))
            (enhancementPrompts prompt mode) in
  let '(model, p0, w0) :=
    if truthy_opt (model o) then (default EmptyString (model o), p, w)
    else getBestModelForMode tags mode p w in
  complete tags pull generate enhancementPrompt (enhance_options mode model o) p0 w0.

End WithDaemon.

End OllamaMore.

(** ** The cache file as the enhancer maintains it ([lib/ai-enhancer.js]) *)

Module AIEnhancer.
Import HuggingFace.






End AIEnhancer.

(** * Properties *)

(** ** Registry *)

Module RegistryFacts.
Import Registry.

Section WithProvider.

Context {Provider Config Result World : Type}.

Implicit Types (m : js_map Provider) (reg : registry Provider).
Implicit Types (op : operation Provider Result World).

Lemma map_get_None_keys m k : map_get k m = None <-> k ∉ map_keys m.
Proof.
  unfold map_keys. induction m as [|[k' v'] m IH]; simpl.
  - split; [intros _; apply not_elem_of_nil | done].
  - destruct (String.eqb k' k) eqn:E.
    + apply String.eqb_eq in E. subst. split; [done|]. intros H.
      exfalso. apply H. left.
    + apply String.eqb_neq in E. rewrite IH. rewrite not_elem_of_cons.
      split; [intros H; split; [congruence | done] | tauto].
Qed.

Lemma map_get_set_same m k v : map_get k (map_set k v m) = Some v.
Proof.
  induction m as [|[k' v'] m IH]; simpl.
  - by rewrite String.eqb_refl.
  - destruct (String.eqb k' k) eqn:E; simpl.
    + by rewrite String.eqb_refl.
    + by rewrite E.
Qed.

Lemma map_get_set_other m k k' v : k ≠ k' -> map_get k' (map_set k v m) = map_get k' m.
Proof.
  intros Hne. induction m as [|[k0 v0] m IH]; simpl.
  - apply String.eqb_neq in Hne. by rewrite Hne.
  - destruct (String.eqb k0 k) eqn:E; simpl.
    + apply String.eqb_eq in E. subst k0.
      apply String.eqb_neq in Hne. by rewrite Hne.
    + by rewrite IH.
Qed.

Lemma map_get_set_is_Some m k k' v :
  is_Some (map_get k' m) -> is_Some (map_get k' (map_set k v m)).
Proof.
  intros H. destruct (decide (k = k')) as [->|Hne].
  - rewrite map_get_set_same. eauto.
  - by rewrite map_get_set_other.
Qed.

Lemma map_keys_set m k v :
  map_keys (map_set k v m) =
  if map_has k m then map_keys m else map_keys m ++ [k].
Proof.
  unfold map_has, map_keys. induction m as [|[k' v'] m IH]; simpl; [done|].
  destruct (String.eqb k' k) eqn:E.
  - apply String.eqb_eq in E. by subst.
  - rewrite fmap_cons, IH. by destruct (map_get k m).
Qed.

Lemma map_set_NoDup m k v : NoDup (map_keys m) -> NoDup (map_keys (map_set k v m)).
Proof.
  intros H. rewrite map_keys_set. unfold map_has.
  destruct (map_get k m) eqn:E; [done|].
  apply map_get_None_keys in E.
  apply NoDup_app. split; [done|]. split.
  - intros x Hx Hx'. apply list_elem_of_singleton in Hx'. by subst.
  - apply NoDup_singleton.
Qed.

Lemma registerProvider_default_registered name (cls : Config -> outcome Provider) config reg :
  default_registered reg -> default_registered (registerProvider name cls config reg).
Proof.
  intros Hinv. unfold registerProvider.
  destruct (cls config) as [provider|msg]; [|done].
  intros n. simpl.
  destruct (negb (truthy_opt (defaultProvider reg))).
  - intros [= <-]. rewrite map_get_set_same. eauto.
  - intros Hn. apply map_get_set_is_Some. by apply Hinv.
Qed.

Lemma setDefaultProvider_default_registered name reg :
  default_registered reg -> default_registered (setDefaultProvider name reg).2.
Proof.
  intros Hinv. unfold setDefaultProvider, map_has.
  destruct (map_get name (providers reg)) eqn:E; simpl; [|done].
  intros n [= <-]. simpl. rewrite E. eauto.
Qed.

Lemma reachable_default_registered reg :
  reachable (Config:=Config) reg -> default_registered reg.
Proof.
  induction 1 as [|name cls config reg _ IH|name reg _ IH].
  - intros n. discriminate.
  - by apply registerProvider_default_registered.
  - by apply setDefaultProvider_default_registered.
Qed.

Lemma reachable_NoDup reg :
  reachable (Config:=Config) reg -> NoDup (map_keys (providers reg)).
Proof.
  induction 1 as [|name cls config reg _ IH|name reg _ IH].
  - apply NoDup_nil_2.
  - unfold registerProvider. destruct (cls config); [|done].
    simpl. by apply map_set_NoDup.
  - unfold setDefaultProvider. by destruct (negb _).
Qed.

(** *** The fallback loop *)

Lemma all_threw_names op l w errs w' :
  all_threw op l w errs w' -> errs.*1 = map_keys l.
Proof.
  unfold map_keys. induction 1; simpl; [done|]. by f_equal.
Qed.

Lemma others_cons_same p provider m :
  others p ((p, provider) :: m) = others p m.
Proof. unfold others. simpl. by rewrite String.eqb_refl. Qed.

Lemma others_cons_other p name provider m :
  name ≠ p -> others p ((name, provider) :: m) = (name, provider) :: others p m.
Proof.
  intros H. apply String.eqb_neq in H. unfold others. simpl. by rewrite H.
Qed.

Lemma others_absent p m : p ∉ map_keys m -> others p m = m.
Proof.
  unfold map_keys. induction m as [|[k v] m IH]; [done|].
  rewrite fmap_cons, not_elem_of_cons. intros [Hne Hnot].
  rewrite others_cons_other by (simpl in Hne; congruence). f_equal. auto.
Qed.

Lemma others_permutation p provider m :
  NoDup (map_keys m) -> map_get p m = Some provider ->
  (p, provider) :: others p m ≡ₚ m.
Proof.
  induction m as [|[k v] m IH]; [done|].
  unfold map_keys in *. rewrite fmap_cons. intros Hnd Hget.
  apply NoDup_cons in Hnd as [Hk Hnd]. cbn [map_get] in Hget. cbn [fst] in Hk.
  destruct (String.eqb k p) eqn:E.
  - apply String.eqb_eq in E. subst k. injection Hget as ->.
    rewrite others_cons_same. by rewrite others_absent.
  - apply String.eqb_neq in E. rewrite others_cons_other by done.
    rewrite Permutation_swap. f_equal. auto.
Qed.

(** What the loop does from any point on: it stops at the first provider,
    other than the preferred one, on which the operation returns, and
    otherwise throws the collected failures. *)
Lemma fallback_loop_spec op p rest : forall errors w res w',
  fallback_loop op (Some p) rest errors w = (res, w') ->
  (exists tried name pr untried errs w1 r,
      others p rest = tried ++ (name, pr) :: untried /\
      all_threw op tried w errs w1 /\
      op (Some pr) w1 = (Returned r, w') /\ res = Returned r)
  \/ (exists errs,
      all_threw op (others p rest) w errs w' /\
      res = Threw (all_failed_message (errors ++ errs))).
Proof.
  induction rest as [|[name provider] rest IH]; intros errors w res w';
    cbn [fallback_loop is_preferred].
  - intros [= <- <-]. right. exists []. rewrite app_nil_r. split; [constructor | done].
  - destruct (String.eqb name p) eqn:E.
    + apply String.eqb_eq in E. subst name. rewrite others_cons_same. apply IH.
    + apply String.eqb_neq in E. rewrite others_cons_other by done.
      destruct (op (Some provider) w) as [[r|msg] w1] eqn:Hop.
      * intros [= <- <-]. left.
        exists [], name, provider, (others p rest), [], w, r.
        repeat split; [constructor | done].
      * intros Hloop. apply IH in Hloop
          as [(tried & n & pr & untried & errs & w2 & r & Hsplit & Hthrew & Hret & ->)
             |(errs & Hthrew & ->)].
        -- left. exists ((name, provider) :: tried), n, pr, untried, ((name, msg) :: errs), w2, r.
           rewrite Hsplit. repeat split; [|done]. by econstructor.
        -- right. exists ((name, msg) :: errs). rewrite <- app_assoc. simpl.
           split; [by econstructor | done].
Qed.

(** Without a preference and without a default, every registered provider
    with a non-empty name is tried in registration order. *)
Lemma executeWithFallback_no_preference op options_provider reg w :
  truthy_opt (js_or options_provider (defaultProvider reg)) = false ->
  executeWithFallback op options_provider reg w =
  fallback_loop op (js_or options_provider (defaultProvider reg))
    (providers reg) [] w.
Proof. intros H. unfold executeWithFallback. by rewrite H. Qed.

(** A preferred name that is not registered is recorded as a failure, with
    the message of [getProvider], and the registered providers are tried in
    registration order. *)
Lemma executeWithFallback_unregistered_preference op options_provider reg w p :
  js_or options_provider (defaultProvider reg) = Some p ->
  truthy p = true ->
  map_get p (providers reg) = None ->
  executeWithFallback op options_provider reg w =
  fallback_loop op (Some p) (providers reg)
    [(p, not_found_message p (providers reg))] w.
Proof.
  intros Hpref Htruthy Hget. unfold executeWithFallback, getProvider.
  rewrite Hpref. cbn [truthy_opt]. rewrite Htruthy.
  cbn [negb andb mbind option_bind]. by rewrite Hget.
Qed.

(** C1, as the code has it.  When the preferred name (the current default
    when no preference is given) is non-empty and registered,
    [executeWithFallback] applies the operation to the preferred provider
    first; when that application throws, it applies the operation to every
    other registered provider in registration order, skipping the one
    already tried and recording each failure.  The attempt order is a
    rearrangement of the registered providers, so each is tried at most
    once and none is left out.  The call returns the result of the first
    provider on which the operation returns, without calling the providers
    after it, and it throws only when the operation threw on every
    registered provider; the message thrown is then the line "All providers
    failed:" followed by one line "- name: message" per provider, in the
    order of the attempts. *)
Theorem executeWithFallback_fallback_order
    op options_provider reg w p provider res w' :
  NoDup (map_keys (providers reg)) ->
  js_or options_provider (defaultProvider reg) = Some p ->
  truthy p = true ->
  map_get p (providers reg) = Some provider ->
  executeWithFallback op options_provider reg w = (res, w') ->
  let order := (p, provider) :: others p (providers reg) in
  order ≡ₚ providers reg /\
  ((exists tried name pr untried errs w1 r,
      order = tried ++ (name, pr) :: untried /\
      all_threw op tried w errs w1 /\
      op (Some pr) w1 = (Returned r, w') /\ res = Returned r)
   \/ (exists errs,
      all_threw op order w errs w' /\ errs.*1 = map_keys order /\
      res = Threw ("All providers failed:" +:+ newline
                   +:+ join newline
                         (map (fun e => "- " +:+ e.1 +:+ ": " +:+ e.2) errs)))).
Proof.
  intros Hnd Hpref Htruthy Hget Hrun order. split.
  { by apply others_permutation. }
  unfold executeWithFallback in Hrun. rewrite Hpref in Hrun.
  cbn [truthy_opt] in Hrun. rewrite Htruthy in Hrun.
  unfold getProvider in Hrun. cbn [truthy_opt] in Hrun.
  rewrite Htruthy in Hrun. cbn [negb andb mbind option_bind] in Hrun.
  rewrite Hget in Hrun. cbn [default] in Hrun.
  destruct (op (Some provider) w) as [[r|msg] w1] eqn:Hop.
  - injection Hrun as <- <-. left.
    exists [], p, provider, (others p (providers reg)), [], w, r.
    repeat split; [constructor | done].
  - apply fallback_loop_spec in Hrun
      as [(tried & n & pr & untried & errs & w2 & r & Hsplit & Hthrew & Hret & ->)
         |(errs & Hthrew & ->)].
    + left. exists ((p, provider) :: tried), n, pr, untried, ((p, msg) :: errs), w2, r.
      subst order. rewrite Hsplit. repeat split; [|done]. by econstructor.
    + right. exists ((p, msg) :: errs).
      assert (all_threw op order w ((p, msg) :: errs) w') as Hall
        by (by econstructor).
      split; [done|]. split; [|done]. by eapply all_threw_names.
Qed.


End WithProvider.

(** The scenario of the specification: "alpha" throws, "beta" returns, the
    default is "alpha"; and the same registry under an operation that
    throws on every provider. *)
Lemma executeWithFallback_alpha_beta :
  (exists res w',
    executeWithFallback Samples.call None Samples.alpha_beta [] = (res, w') /\
    res = Returned "OK-beta" /\ w' = ["Alpha"; "Beta"] /\
    let order := ("alpha", "Alpha") :: others "alpha" (providers Samples.alpha_beta) in
    order ≡ₚ providers Samples.alpha_beta /\
    ((exists tried name pr untried errs w1 r,
        order = tried ++ (name, pr) :: untried /\
        all_threw Samples.call tried [] errs w1 /\
        Samples.call (Some pr) w1 = (Returned r, w') /\ res = Returned r)
     \/ (exists errs,
        all_threw Samples.call order [] errs w' /\ errs.*1 = map_keys order /\
        res = Threw ("All providers failed:" +:+ newline
                     +:+ join newline
                           (map (fun e => "- " +:+ e.1 +:+ ": " +:+ e.2) errs)))))
  /\ executeWithFallback Samples.refuse None Samples.alpha_beta [] =
       (Threw ("All providers failed:" +:+ newline
               +:+ "- alpha: ECONNREFUSED Alpha" +:+ newline
               +:+ "- beta: ECONNREFUSED Beta"),
        ["Alpha"; "Beta"])
  /\ exists errs,
       all_threw Samples.refuse
         (("alpha", "Alpha") :: others "alpha" (providers Samples.alpha_beta))
         [] errs ["Alpha"; "Beta"]
       /\ errs.*1 = ["alpha"; "beta"].
Proof.
  split; [|split].
  - eexists _, _. split; [vm_compute; reflexivity|].
    split; [reflexivity|]. split; [reflexivity|].
    apply (executeWithFallback_fallback_order
             Samples.call None Samples.alpha_beta [] "alpha" "Alpha").
    + refine (bool_decide_unpack _ _). vm_compute. exact I.
    + reflexivity.
    + reflexivity.
    + reflexivity.
    + vm_compute. reflexivity.
  - vm_compute. reflexivity.
  - destruct (executeWithFallback_fallback_order
                Samples.refuse None Samples.alpha_beta [] "alpha" "Alpha"
                (Threw ("All providers failed:" +:+ newline
                        +:+ "- alpha: ECONNREFUSED Alpha" +:+ newline
                        +:+ "- beta: ECONNREFUSED Beta"))
                ["Alpha"; "Beta"])
      as [_ [(tried & name & pr & untried & errs & w1 & r & _ & _ & _ & Hres)
            |(errs & Hthrew & Hnames & _)]].
    + refine (bool_decide_unpack _ _). vm_compute. exact I.
    + reflexivity.
    + reflexivity.
    + reflexivity.
    + vm_compute. reflexivity.
    + discriminate Hres.
    + exists errs. split; [exact Hthrew|exact Hnames].
Defined.

(** C1 as stated fails in a registry whose only provider is registered
    under the empty name: the operation would return on that provider, but
    [executeWithFallback] throws without calling it. *)
Lemma executeWithFallback_skips_unnamed_provider :
  providers Samples.unnamed = [(EmptyString, "Beta")]
  /\ defaultProvider Samples.unnamed = Some EmptyString
  /\ Samples.call (Some "Beta") [] = (Returned "OK-beta", ["Beta"])
  /\ executeWithFallback Samples.call None Samples.unnamed [] =
       (Threw ("All providers failed:" +:+ newline), []).
Proof. vm_compute. repeat split. Qed.


End RegistryFacts.

(** ** Usage bookkeeping *)

Module BaseProviderFacts.
Import BaseProvider.

Lemma checkRateLimits_usage now b :
  usage (checkRateLimits now b).2 =
  if 3600000 <? now - lastReset (usage b)
  then {| requests := 0; tokens := 0; lastReset := now |}
  else usage b.
Proof.
  unfold checkRateLimits.
  destruct (3600000 <? now - lastReset (usage b)); simpl;
    match goal with |- context [if ?c then _ else _] => destruct c end; done.
Qed.

Lemma checkRateLimits_rateLimits now b :
  rateLimits (checkRateLimits now b).2 = rateLimits b.
Proof.
  unfold checkRateLimits.
  destruct (3600000 <? now - lastReset (usage b)); simpl;
    match goal with |- context [if ?c then _ else _] => destruct c end; done.
Qed.

(** The check throws exactly when, after the hourly reset, the request
    counter has reached the hourly limit. *)
Lemma checkRateLimits_outcome now b :
  (checkRateLimits now b).1 =
  if requestsPerHour (rateLimits b) <=? requests (usage (checkRateLimits now b).2)
  then Threw (rate_limit_message (requestsPerHour (rateLimits b)))
  else Returned tt.
Proof.
  unfold checkRateLimits.
  destruct (3600000 <? now - lastReset (usage b)); simpl;
    match goal with |- context [if ?c then _ else _] => destruct c eqn:E end;
    simpl; by rewrite ?E.
Qed.

(** C7, as the code has it.  [trackUsage] adds one request and [tokenCount]
    tokens and leaves [lastReset] alone, whatever the clock shows, so with a
    non-negative token count the counters never decrease through it.  The
    hourly reset belongs to [checkRateLimits]: it zeroes both counters and
    sets [lastReset] to the current time exactly when more than 3600000 ms
    have passed since [lastReset], and otherwise leaves the counters as they
    are. *)
Theorem usage_counters_window (now tokenCount : Z) (b : base) :
  0 <= tokenCount ->
  usage (trackUsage tokenCount b) =
    {| requests := requests (usage b) + 1;
       tokens := tokens (usage b) + tokenCount;
       lastReset := lastReset (usage b) |}
  /\ requests (usage b) <= requests (usage (trackUsage tokenCount b))
  /\ tokens (usage b) <= tokens (usage (trackUsage tokenCount b))
  /\ (3600000 < now - lastReset (usage b) ->
      usage (checkRateLimits now b).2 =
        {| requests := 0; tokens := 0; lastReset := now |})
  /\ (now - lastReset (usage b) <= 3600000 ->
      usage (checkRateLimits now b).2 = usage b).
Proof.
  intros Hpos. rewrite checkRateLimits_usage. simpl.
  repeat split; try lia.
  - intros H. apply Z.ltb_lt in H. by rewrite H.
  - intros H. apply Z.ltb_ge in H. by rewrite H.
Qed.

Lemma usage_counters_window_two_hours :
  let b := with_usage {| requests := 5; tokens := 100; lastReset := 0 |}
             (constructor "ollama" 0) in
  0 <= 10 /\
  3600000 < 7200000 - lastReset (usage b) /\
  usage (trackUsage 10 b) = {| requests := 6; tokens := 110; lastReset := 0 |} /\
  usage (checkRateLimits 7200000 b).2 =
    {| requests := 0; tokens := 0; lastReset := 7200000 |}.
Proof.
  intros b.
  destruct (usage_counters_window 7200000 10 b) as (Htrack & _ & _ & Hreset & _);
    [lia|].
  split; [lia|]. split; [simpl; lia|]. split; [exact Htrack|].
  apply Hreset. simpl. lia.
Defined.

(** C7 as stated fails: two hours after the last reset, [trackUsage] still
    counts on from the old values and does not touch [lastReset]. *)
Lemma trackUsage_never_resets :
  let b := with_usage {| requests := 5; tokens := 100; lastReset := 0 |}
             (constructor "ollama" 0) in
  let now := 7200000 in
  3600000 < now - lastReset (usage b) /\
  requests (usage (trackUsage 10 b)) = 6 /\
  tokens (usage (trackUsage 10 b)) = 110 /\
  lastReset (usage (trackUsage 10 b)) <> now.
Proof. simpl. repeat split; lia. Qed.

End BaseProviderFacts.

(** ** The bounded cache *)

Module LRUFacts.
Import LRU.

Implicit Types (c : cache) (e : entry) (l : list entry).

Lemma lookup_cons_same k e l c :
  key e = k -> lookup k (with_items (e :: l) c) = Some e.
Proof. intros <-. unfold lookup, has_key. simpl. by rewrite String.eqb_refl. Qed.

Lemma lookup_None_keys k c : lookup k c = None <-> k ∉ key <$> items c.
Proof.
  unfold lookup. induction (items c) as [|e l IH]; simpl.
  - split; [intros _; apply not_elem_of_nil | done].
  - unfold has_key at 1. destruct (String.eqb (key e) k) eqn:E.
    + apply String.eqb_eq in E. split; [done|]. intros H. exfalso. apply H.
      rewrite E. left.
    + apply String.eqb_neq in E. rewrite IH, not_elem_of_cons.
      split; [intros H; split; [congruence | done] | tauto].
Qed.

Lemma set_ttl now k v c : ttl (set now k v c).1 = ttl c.
Proof.
  unfold set. destruct (lookup k c); [done|].
  by destruct (max c <=? length (items c))%nat.
Qed.

Lemma set_max now k v c : max (set now k v c).1 = max c.
Proof.
  unfold set. destruct (lookup k c); [done|].
  by destruct (max c <=? length (items c))%nat.
Qed.

Lemma get_ttl now k c : ttl (get now k c).2 = ttl c.
Proof.
  unfold get. destruct (lookup k c) as [e|]; [|done].
  by destruct (valid c now e).
Qed.

Lemma elem_of_without k e l : e ∈ without k l -> e ∈ l.
Proof.
  unfold without. rewrite !list_elem_of_In, filter_In. tauto.
Qed.

Lemma elem_of_removelast e l : e ∈ removelast l -> e ∈ l.
Proof.
  induction l as [|x l IH]; [done|]. simpl.
  destruct l as [|y l]; [intros H; by apply elem_of_nil in H|].
  rewrite !elem_of_cons. intros [->|H]; [by left|]. right.
  apply IH in H. by apply elem_of_cons.
Qed.

(** Whatever [set] keeps was there before, apart from the entry it stores. *)
Lemma set_items_from now k v c e :
  e ∈ items (set now k v c).1 ->
  e = {| key := k; value := v; storedAt := now |} \/ e ∈ items c.
Proof.
  unfold set. destruct (lookup k c).
  - simpl. rewrite elem_of_cons. intros [->|H]; [by left|].
    right. by eapply elem_of_without.
  - destruct (max c <=? length (items c))%nat; simpl;
      rewrite elem_of_cons; intros [->|H]; auto.
    right. by apply elem_of_removelast.
Qed.

(** A new key stored below capacity goes to the front and evicts nothing. *)
Lemma set_fresh_below_capacity now k v c :
  k ∉ key <$> items c -> (length (items c) < max c)%nat ->
  set now k v c =
  (with_items ({| key := k; value := v; storedAt := now |} :: items c) c, None).
Proof.
  intros Hk Hlen. unfold set.
  apply lookup_None_keys in Hk. rewrite Hk.
  destruct (max c <=? length (items c))%nat eqn:E; [|done].
  apply Nat.leb_le in E. lia.
Qed.

(** A new key stored at capacity evicts exactly the least recently used
    entry, the last one. *)
Lemma set_fresh_at_capacity now k v c l victim :
  items c = l ++ [victim] ->
  k ∉ key <$> items c -> (max c <= length (items c))%nat ->
  set now k v c =
  (with_items ({| key := k; value := v; storedAt := now |} :: l) c, Some victim).
Proof.
  intros Hitems Hk Hlen. unfold set.
  apply lookup_None_keys in Hk. rewrite Hk.
  apply Nat.leb_le in Hlen. rewrite Hlen, Hitems.
  by rewrite removelast_last, last_snoc.
Qed.

(** Reading back what was just stored, before it expires. *)
Lemma get_after_set now now' k v c :
  now' < now + ttl c ->
  (get now' k (set now k v c).1).1 = Some v.
Proof.
  intros Ht. unfold get.
  assert (exists l, (set now k v c).1 =
            with_items ({| key := k; value := v; storedAt := now |} :: l) c)
    as [l Hset].
  { unfold set. destruct (lookup k c); [by eexists|].
    destruct (max c <=? length (items c))%nat; by eexists. }
  rewrite Hset, lookup_cons_same by done.
  unfold valid. simpl.
  apply Z.ltb_lt in Ht. by rewrite Ht.
Qed.

End LRUFacts.

(** ** The hosted-inference provider *)

Module HuggingFaceFacts.
Import HuggingFace.

Implicit Types (p : provider) (w : world) (c : LRU.cache).
Implicit Types (L : list (string * disk_entry)) (data : gmap string disk_entry).

(** *** Loading *)

Lemma load_entry_max now c kv : LRU.max (load_entry now c kv) = LRU.max c.
Proof.
  unfold load_entry. destruct (now <? expires kv.2); [|done].
  apply LRUFacts.set_max.
Qed.

Lemma load_entry_ttl now c kv : LRU.ttl (load_entry now c kv) = LRU.ttl c.
Proof.
  unfold load_entry. destruct (now <? expires kv.2); [|done].
  apply LRUFacts.set_ttl.
Qed.

Lemma load_fold_max now L : forall c,
  LRU.max (foldl (load_entry now) c L) = LRU.max c.
Proof.
  induction L as [|kv L IH]; intros c; simpl; [done|].
  by rewrite IH, load_entry_max.
Qed.

Lemma load_fold_ttl now L : forall c,
  LRU.ttl (foldl (load_entry now) c L) = LRU.ttl c.
Proof.
  induction L as [|kv L IH]; intros c; simpl; [done|].
  by rewrite IH, load_entry_ttl.
Qed.

(** Only live records are stored. *)
Lemma load_fold_only_live now L : forall c e,
  e ∈ LRU.items (foldl (load_entry now) c L) ->
  e ∈ LRU.items c \/ exists kv, kv ∈ L /\ live now kv /\ e = stored now kv.
Proof.
  induction L as [|kv L IH]; intros c e; simpl; [by left|].
  intros He. apply IH in He as [He|(kv' & Hin & Hlive & ->)].
  - unfold load_entry in He. destruct (now <? expires kv.2) eqn:E; [|by left].
    apply LRUFacts.set_items_from in He as [->|He]; [|by left].
    right. exists kv. split; [left|]. split; [|done].
    by apply Z.ltb_lt in E.
  - right. exists kv'. split; [by right | done].
Qed.

(** Below capacity, every live record is stored and nothing is evicted: the
    cache ends up with the live records, last loaded first. *)
Lemma load_fold_all_live now L : forall c,
  NoDup L.*1 ->
  (forall k, k ∈ L.*1 -> k ∉ LRU.key <$> LRU.items c) ->
  (length (filter (live now) L) + length (LRU.items c) <= LRU.max c)%nat ->
  LRU.items (foldl (load_entry now) c L) =
  reverse (stored now <$> filter (live now) L) ++ LRU.items c.
Proof.
  induction L as [|kv L IH]; intros c Hnd Hdisj Hlen; [done|].
  rewrite fmap_cons in Hnd, Hdisj. apply NoDup_cons in Hnd as [Hkv Hnd].
  cbn [foldl]. destruct (decide (live now kv)) as [Hlive|Hdead].
  - rewrite filter_cons_True in Hlen |- * by done.
    assert (load_entry now c kv = LRU.with_items (stored now kv :: LRU.items c) c) as ->.
    { unfold load_entry. unfold live in Hlive. apply Z.ltb_lt in Hlive.
      rewrite Hlive, LRUFacts.set_fresh_below_capacity; [done| |simpl in Hlen; lia].
      apply Hdisj. left. }
    rewrite IH; [|done| |simpl in *; lia].
    + by rewrite fmap_cons, reverse_cons, <- app_assoc.
    + intros k Hk. simpl. rewrite not_elem_of_cons. split.
      * intros ->. done.
      * apply Hdisj. by right.
  - rewrite filter_cons_False in Hlen |- * by done.
    assert (load_entry now c kv = c) as ->.
    { unfold load_entry. unfold live in Hdead. apply Z.ltb_nlt in Hdead.
      by rewrite Hdead. }
    apply IH; [done| |done]. intros k Hk. apply Hdisj. by right.
Qed.

(** *** Saving *)


Lemma export_fold_lookup_notin now (l : list (string * string)) : forall m k,
  k ∉ l.*1 -> foldl (export_entry now) m l !! k = m !! k.
Proof.
  induction l as [|kv l IH]; intros m k; simpl; [done|].
  rewrite not_elem_of_cons. intros [Hne Hk].
  rewrite IH by done. unfold export_entry. by rewrite lookup_insert_ne.
Qed.



(** Loading is storing exactly the live records, in the order in which the
    file lists them. *)
Lemma load_fold_sets_live now L : forall c,
  foldl (load_entry now) c L =
  foldl (fun c kv => (LRU.set now kv.1 (value kv.2) c).1) c (filter (live now) L).
Proof.
  induction L as [|kv L IH]; intros c; [done|].
  cbn [foldl]. rewrite IH. unfold load_entry at 1.
  destruct (decide (live now kv)) as [Hlive|Hdead].
  - rewrite filter_cons_True by done. unfold live in Hlive.
    apply Z.ltb_lt in Hlive. by rewrite Hlive.
  - rewrite filter_cons_False by done. unfold live in Hdead.
    apply Z.ltb_nlt in Hdead. by rewrite Hdead.
Qed.


(** The loop stores the readable records, and throws exactly when it meets
    a [null]. *)
Lemma load_loop_readable now entries : forall c,
  (load_loop now c entries).2 = foldl (load_entry now) c (readable entries).
Proof.
  induction entries as [|[k [| |d]] entries IH]; intros c;
    cbn [load_loop readable foldl snd]; try done; apply IH.
Qed.

Lemma load_loop_returns now entries : forall c,
  (load_loop now c entries).1 = Returned tt <->
  forall key, (key, NullRecord) ∉ entries.
Proof.
  induction entries as [|[k [| |d]] entries IH]; intros c; cbn [load_loop fst].
  - split; [intros _ key; apply not_elem_of_nil|done].
  - split; [done|]. intros Hnone. exfalso. apply (Hnone k). left.
  - rewrite IH. split; intros Hnone key.
    + rewrite not_elem_of_cons. split; [done|apply Hnone].
    + specialize (Hnone key). rewrite not_elem_of_cons in Hnone. tauto.
  - rewrite IH. split; intros Hnone key.
    + rewrite not_elem_of_cons. split; [done|apply Hnone].
    + specialize (Hnone key). rewrite not_elem_of_cons in Hnone. tauto.
Qed.

Lemma loadPersistentCache_from_cache disk now p :
  cache (loadPersistentCache_from disk now p).2 =
  match disk with
  | Parsed entries => foldl (load_entry now) (cache p) (readable entries)
  | Missing | Corrupt => cache p
  end.
Proof.
  unfold loadPersistentCache_from, loadPersistentCache_try.
  destruct disk as [| |entries]; [done..|].
  rewrite <- load_loop_readable.
  by destruct (load_loop now (cache p) entries) as [[[]|msg] c].
Qed.

Lemma loadPersistentCache_from_returns disk now p :
  (loadPersistentCache_from disk now p).1 = Returned tt.
Proof.
  unfold loadPersistentCache_from.
  by destruct (loadPersistentCache_try disk now p).
Qed.


Lemma loadPersistentCache_absent p w :
  file w = NoFile \/ file w = Unparsable ->
  loadPersistentCache p w = (Returned tt, p).
Proof.
  unfold loadPersistentCache, loadPersistentCache_from, loadPersistentCache_try.
  by intros [-> | ->].
Qed.


Lemma loadPersistentCache_ttl p w :
  LRU.ttl (cache (loadPersistentCache p w).2) = LRU.ttl (cache p).
Proof.
  unfold loadPersistentCache. rewrite loadPersistentCache_from_cache.
  destruct (on_disk (file w)); try done. apply load_fold_ttl.
Qed.

(** C9, as the code has it.  [loadPersistentCache] returns normally
    whatever the disk holds.  With no file or an unparsable file the
    provider is left as it was.  With a file that parses, it stores, in the
    order of the file, exactly the records whose expiry lies strictly after
    the current time among those it reads, and it reads the records up to
    the first [null]: on a [null] the loop throws, the error is swallowed,
    the records stored so far stay and the records after it are not looked
    at.  The read is counted only when the loop ran to its end.  So every
    entry of a provider that started empty comes from a live record that
    was read, and when these records have distinct keys and fit in the
    cache, they are the entries of the cache afterwards, the last one
    stored being the most recently used. *)
Theorem loadPersistentCache_loads_live_never_throws disk now p :
  (loadPersistentCache_from disk now p).1 = Returned tt
  /\ (disk = Missing \/ disk = Corrupt ->
      (loadPersistentCache_from disk now p).2 = p)
  /\ (forall entries, disk = Parsed entries ->
       cache (loadPersistentCache_from disk now p).2 =
         foldl (fun c kv => (LRU.set now kv.1 (value kv.2) c).1) (cache p)
               (filter (live now) (readable entries))
       /\ ((forall key, (key, NullRecord) ∉ entries) ->
           diskReads (cacheStats (loadPersistentCache_from disk now p).2) =
             diskReads (cacheStats p) + 1)
       /\ ((exists key, (key, NullRecord) ∈ entries) ->
           diskReads (cacheStats (loadPersistentCache_from disk now p).2) =
             diskReads (cacheStats p))
       /\ (LRU.items (cache p) = [] ->
           forall e, e ∈ LRU.items (cache (loadPersistentCache_from disk now p).2) ->
             exists kv, kv ∈ readable entries /\ now < expires kv.2 /\
                        e = stored now kv)
       /\ (LRU.items (cache p) = [] ->
           NoDup (readable entries).*1 ->
           (length (filter (live now) (readable entries)) <= LRU.max (cache p))%nat ->
           LRU.items (cache (loadPersistentCache_from disk now p).2) =
             reverse (stored now <$> filter (live now) (readable entries)))).
Proof.
  split; [apply loadPersistentCache_from_returns|]. split.
  - unfold loadPersistentCache_from, loadPersistentCache_try.
    by intros [-> | ->].
  - intros entries ->. rewrite loadPersistentCache_from_cache.
    split; [apply load_fold_sets_live|]. split; [|split; [|split]].
    + intros Hnone.
      unfold loadPersistentCache_from, loadPersistentCache_try. cbn [snd].
      apply (load_loop_returns now entries (cache p)) in Hnone.
      destruct (load_loop now (cache p) entries) as [[[]|msg] c]; [done|].
      discriminate Hnone.
    + intros [key Hnull].
      unfold loadPersistentCache_from, loadPersistentCache_try. cbn [snd].
      pose proof (load_loop_returns now entries (cache p)) as [Hreturns _].
      destruct (load_loop now (cache p) entries) as [[[]|msg] c]; [|done].
      exfalso. by apply (Hreturns eq_refl key).
    + intros Hempty e He.
      apply load_fold_only_live in He as [He|(kv & Hin & Hlive & ->)].
      { rewrite Hempty in He. by apply elem_of_nil in He. }
      by exists kv.
    + intros Hempty Hnd Hfit. rewrite load_fold_all_live.
      * by rewrite Hempty, app_nil_r.
      * done.
      * intros k _. rewrite Hempty. apply not_elem_of_nil.
      * rewrite Hempty. simpl. lia.
Qed.

Lemma loadPersistentCache_loads_live_never_throws_two_records :
  let p := Samples.blank_provider Samples.good_key 1000000 in
  let loaded := loadPersistentCache_from (Parsed Samples.two_entries) 1000000 p in
  loaded.1 = Returned tt
  /\ LRU.items (cache loaded.2) =
       [stored 1000000 ("new", {| value := "fresh answer"; expires := 2000000 |})]
  /\ diskReads (cacheStats loaded.2) = 1.
Proof.
  intros p loaded.
  destruct (loadPersistentCache_loads_live_never_throws
              (Parsed Samples.two_entries) 1000000 p)
    as (Hreturns & _ & Hparsed).
  destruct (Hparsed Samples.two_entries eq_refl) as (_ & Hreads & _ & _ & Hall).
  split; [exact Hreturns|]. split.
  - subst loaded. rewrite Hall; [reflexivity|reflexivity| |].
    + refine (bool_decide_unpack _ _). vm_compute. exact I.
    + apply Nat.leb_le. vm_compute. reflexivity.
  - subst loaded. rewrite Hreads; [reflexivity|].
    intros key Hin. apply list_elem_of_In in Hin. simpl in Hin.
    destruct Hin as [[=]|[[=]|[]]].
Defined.

(** C9 as stated fails on a file that parses but holds a [null] before a
    live record: the call returns, but the live record is not in the cache
    afterwards. *)
Lemma loadPersistentCache_stops_at_null :
  let p := Samples.blank_provider Samples.good_key 1000000 in
  let loaded := loadPersistentCache_from (Parsed Samples.null_then_fresh) 1000000 p in
  ("new", Record {| value := "fresh answer"; expires := 2000000 |})
    ∈ Samples.null_then_fresh
  /\ 1000000 < 2000000
  /\ loaded.1 = Returned tt
  /\ LRU.items (cache loaded.2) = []
  /\ diskReads (cacheStats loaded.2) = 0.
Proof.
  intros p loaded. split; [right; left|]. split; [lia|].
  vm_compute. repeat split.
Qed.

(** *** Loading, then saving *)










(** *** Construction and credential check *)

Lemma loadPersistentCache_apiKey p w : apiKey (loadPersistentCache p w).2 = apiKey p.
Proof.
  unfold loadPersistentCache, loadPersistentCache_from, loadPersistentCache_try.
  destruct (on_disk (file w)) as [| |entries]; [done..|].
  by destruct (load_loop _ _ _) as [[[]|msg] c].
Qed.

(** A provider that the constructor returns has the cache parameters of the
    source, capacity 1000 and a TTL of 24 hours, and holds only what the
    cache file gave it. *)
Lemma constructor_cache cfg HF_TOKEN homedir w p :
  constructor cfg HF_TOKEN homedir w = Returned p ->
  LRU.max (cache p) = 1000%nat /\ LRU.ttl (cache p) = TTL /\
  exists p0, LRU.items (cache p0) = [] /\ p = (loadPersistentCache p0 w).2.
Proof.
  unfold constructor.
  destruct (negb (truthy_opt (js_or (cfg_apiKey cfg) HF_TOKEN))); [done|].
  intros Hp.
  match type of Hp with
  | Returned ?x = _ => assert (p = x) as -> by congruence
  end.
  clear Hp. rewrite loadPersistentCache_ttl. split; [|split; [done|]].
  - unfold loadPersistentCache. rewrite loadPersistentCache_from_cache.
    destruct (on_disk (file w)); simpl; try done. apply load_fold_max.
  - eexists. split; [|reflexivity]. reflexivity.
Qed.

(** C2, as the code has it.  The constructor throws exactly when no
    credential is configured (neither [config.apiKey] nor [HF_TOKEN], or an
    empty one); any non-empty credential is accepted and kept as it is.  The
    shape, the prefix [hf_] and at least 20 characters, is checked by
    [initialize], which throws on a malformed credential and leaves the
    world untouched: no request is sent and no directory is created. *)
Theorem constructor_accepts_initialize_validates cfg HF_TOKEN homedir w :
  (truthy_opt (js_or (cfg_apiKey cfg) HF_TOKEN) = false ->
   constructor cfg HF_TOKEN homedir w =
     Threw "HuggingFace API key not found. Set HF_TOKEN environment variable.")
  /\ (forall key,
      js_or (cfg_apiKey cfg) HF_TOKEN = Some key -> truthy key = true ->
      exists p,
        constructor cfg HF_TOKEN homedir w = Returned p /\ apiKey p = key /\
        (String.prefix "hf_" key = false \/ (String.length key < 20)%nat ->
         forall w', initialize p w' =
                    (Threw "Invalid HuggingFace API key format", w'))).
Proof.
  split.
  - intros Hnone. unfold constructor. by rewrite Hnone.
  - intros key Hkey Htruthy. unfold constructor. rewrite Hkey. simpl.
    rewrite Htruthy. simpl. eexists. split; [done|].
    rewrite loadPersistentCache_apiKey. simpl. split; [done|].
    intros Hbad w'. unfold initialize.
    rewrite loadPersistentCache_apiKey. simpl.
    destruct Hbad as [-> | Hshort]; [done|].
    apply Nat.ltb_lt in Hshort. rewrite Hshort. by rewrite orb_true_r.
Qed.

Lemma constructor_accepts_initialize_validates_bad_key :
  exists p,
    constructor {| cfg_apiKey := Some "bad"; cfg_cacheDir := None |} None
                "/home/user" Samples.disk_world = Returned p /\
    apiKey p = "bad" /\
    forall w', initialize p w' = (Threw "Invalid HuggingFace API key format", w').
Proof.
  destruct (constructor_accepts_initialize_validates
              {| cfg_apiKey := Some "bad"; cfg_cacheDir := None |} None
              "/home/user" Samples.disk_world) as [_ H].
  destruct (H "bad") as (p & Hp & Hkey & Hinit); [reflexivity | reflexivity |].
  exists p. split; [exact Hp|]. split; [exact Hkey|].
  apply Hinit. left. reflexivity.
Defined.

(** C2 as stated fails: a non-empty credential without the prefix and
    shorter than 20 characters is accepted by the constructor. *)
Lemma constructor_accepts_malformed_key :
  exists p,
    constructor {| cfg_apiKey := Some "bad"; cfg_cacheDir := None |} None
                "/home/user" Samples.bare_world = Returned p /\
    apiKey p = "bad" /\
    String.prefix "hf_" "bad" = false /\
    (String.length "bad" < 20)%nat.
Proof. eexists. repeat split. simpl. lia. Qed.

(** *** Completion *)

Section WithRuntime.

Context (JSON_stringify : key_params -> string) (fetch : request -> response).

Lemma store_response_cache k v p w :
  cache (store_response k v p w).1 = (LRU.set (clock w) k v (cache p)).1.
Proof.
  unfold store_response, savePersistentCache.
  by destruct (cache_dir_exists w).
Qed.

Lemma store_response_world k v p w :
  clock (store_response k v p w).2 = clock w /\
  net_log (store_response k v p w).2 = net_log w.
Proof.
  unfold store_response, savePersistentCache.
  by destruct (cache_dir_exists w).
Qed.

Lemma store_response_file k v p w :
  cache_dir_exists w = true ->
  file (store_response k v p w).2 =
  CacheData (export_entries (clock w) (LRU.set (clock w) k v (cache p)).1).
Proof.
  intros Hdir. unfold store_response, savePersistentCache. by rewrite Hdir.
Qed.

(** The key ignores everything past the hundredth character of the prompt. *)
Lemma getCacheKey_prefix prompt1 prompt2 model o :
  String.substring 0 100 prompt1 = String.substring 0 100 prompt2 ->
  getCacheKey JSON_stringify prompt1 model o =
  getCacheKey JSON_stringify prompt2 model o.
Proof. intros H. unfold getCacheKey. by rewrite H. Qed.

(** What a call that went to the API and came back leaves in the cache. *)
Lemma complete_generated prompt o p w text p' w' r :
  complete JSON_stringify fetch prompt o p w = (Returned text, p', w') ->
  net_log w' = net_log w ++ [r] ->
  exists model c1,
    models (selected_tier o) = Some model /\
    LRU.ttl c1 = LRU.ttl (cache p) /\
    cache p' = (LRU.set (clock w)
                  (getCacheKey JSON_stringify prompt (id model) o) text c1).1 /\
    clock w' = clock w.
Proof.
  unfold complete. intros Hrun Hlog.
  destruct (models (selected_tier o)) as [model|]; [|done].
  destruct (LRU.get (clock w) _ (cache p)) as [cached c1] eqn:Hget.
  destruct (truthy_opt cached && negb (noCache o)).
  { injection Hrun as _ _ <-. apply (f_equal length) in Hlog.
    rewrite length_app in Hlog. simpl in Hlog. lia. }
  destruct (fetch _) as [e|status error|generated]; [done|done|].
  destruct (store_response _ _ _ _) as [p4 w2] eqn:Hstore.
  injection Hrun as <- <- <-.
  exists model, c1. split; [done|].
  split. { replace c1 with (LRU.get (clock w)
             (getCacheKey JSON_stringify prompt (id model) o) (cache p)).2
             by (by rewrite Hget). apply LRUFacts.get_ttl. }
  pose proof (store_response_cache
    (getCacheKey JSON_stringify prompt (id model) o) (generatedText generated)
    (with_stats (count_miss (cacheStats (with_cache c1 p))) (with_cache c1 p))
    (log_request (requestBody prompt o p model) w)) as Hcache.
  pose proof (store_response_world
    (getCacheKey JSON_stringify prompt (id model) o) (generatedText generated)
    (with_stats (count_miss (cacheStats (with_cache c1 p))) (with_cache c1 p))
    (log_request (requestBody prompt o p model) w)) as [Hclock _].
  rewrite Hstore in Hcache, Hclock. simpl in *. by rewrite Hcache, Hclock.
Qed.


Lemma get_miss now k c :
  k ∉ LRU.key <$> LRU.items c -> LRU.get now k c = (None, c).
Proof.
  intros Hk. apply LRUFacts.lookup_None_keys in Hk.
  unfold LRU.get. by rewrite Hk.
Qed.

(** C4, what the code does.  When the cache is full and [complete] stores a
    response under a new key, the least recently used entry leaves the
    cache, the other entries stay, and the cache file that is written next
    no longer holds a record under the evicted entry's key: nothing saves the
    evicted entry on its way out. *)
Theorem complete_eviction_drops_disk_copy
    prompt o p w model l victim generated :
  models (selected_tier o) = Some model ->
  LRU.items (cache p) = l ++ [victim] ->
  (LRU.max (cache p) <= length (LRU.items (cache p)))%nat ->
  getCacheKey JSON_stringify prompt (id model) o ∉ LRU.key <$> LRU.items (cache p) ->
  LRU.key victim ∉ LRU.key <$> l ->
  fetch (requestBody prompt o p model) = Ok generated ->
  cache_dir_exists w = true ->
  let run := complete JSON_stringify fetch prompt o p w in
  LRU.items (cache run.1.2) =
    {| LRU.key := getCacheKey JSON_stringify prompt (id model) o;
       LRU.value := generatedText generated;
       LRU.storedAt := clock w |} :: l
  /\ exists written,
      file run.2 = CacheData written /\ written !! LRU.key victim = None.
Proof.
  intros Hmodel Hitems Hfull Hnew Hvictim Hfetch Hdir run.
  assert (LRU.key victim <> getCacheKey JSON_stringify prompt (id model) o) as Hne.
  { intros Heq. apply Hnew. rewrite Hitems, fmap_app, <- Heq.
    apply elem_of_app. right. left. }
  subst run. unfold complete. rewrite Hmodel, get_miss by done.
  cbn [truthy_opt andb]. rewrite Hfetch.
  set (k := getCacheKey JSON_stringify prompt (id model) o) in *.
  set (p2 := with_stats _ _).
  set (w1 := log_request _ w).
  pose proof (store_response_cache k (generatedText generated) p2 w1) as Hcache.
  pose proof (store_response_file k (generatedText generated) p2 w1 Hdir) as Hfile.
  destruct (store_response k (generatedText generated) p2 w1) as [p4 w2].
  cbn [fst snd] in *. cbn [cache with_base].
  assert ((LRU.set (clock w1) k (generatedText generated) (cache p2)).1 =
          LRU.with_items ({| LRU.key := k; LRU.value := generatedText generated;
                             LRU.storedAt := clock w |} :: l) (cache p)) as Hset.
  { subst p2 w1. cbn [cache with_stats with_cache clock log_request].
    by rewrite (LRUFacts.set_fresh_at_capacity _ _ _ _ l victim). }
  rewrite Hset in Hcache, Hfile. split; [by rewrite Hcache|].
  eexists. split; [exact Hfile|].
  unfold export_entries. rewrite export_fold_lookup_notin; [apply lookup_empty|].
  unfold LRU.entries. intros Hin.
  apply list_elem_of_fmap in Hin as ([k' v'] & Hk' & Hin). simpl in Hk'. subst k'.
  apply list_elem_of_In, in_map_iff in Hin as (e & [= Hkey _] & He).
  simpl in He.
  destruct He as [<- | He]; [simpl in Hkey; congruence|].
  apply Hvictim. rewrite <- Hkey. apply list_elem_of_fmap_2.
  by apply list_elem_of_In.
Qed.

End WithRuntime.

(** C4 at a full cache of 1000 entries: the entry "999" is evicted and its
    record is not in the file written afterwards. *)
Lemma complete_eviction_drops_disk_copy_full_cache :
  let run := complete bar_separated Samples.fetch_text "hello" Samples.no_options
               Samples.full_provider Samples.bare_world in
  LRU.size (cache Samples.full_provider) = 1000%nat /\
  last (LRU.items (cache Samples.full_provider)) = Some (Samples.numbered 999) /\
  LRU.size (cache run.1.2) = 1000%nat /\
  ("999" ∉ LRU.key <$> LRU.items (cache run.1.2)) /\
  exists written,
    file run.2 = CacheData written /\ written !! "999" = None.
Proof.
  intros run.
  destruct (complete_eviction_drops_disk_copy bar_separated Samples.fetch_text
              "hello" Samples.no_options Samples.full_provider Samples.bare_world
              {| id := "mistralai/Mixtral-8x7B-Instruct-v0.1";
                 maxTokens := 1024; rateLimit := 2000 |}
              (map Samples.numbered (seq 0 999)) (Samples.numbered 999)
              (Some "generated"))
    as [Hitems Hfile].
  - reflexivity.
  - vm_compute. reflexivity.
  - vm_compute. done.
  - refine (bool_decide_unpack _ _). vm_compute. exact I.
  - refine (bool_decide_unpack _ _). vm_compute. exact I.
  - reflexivity.
  - reflexivity.
  - split; [vm_compute; reflexivity|]. split; [vm_compute; reflexivity|].
    fold run in Hitems, Hfile. split; [|split; [|exact Hfile]].
    + unfold LRU.size. rewrite Hitems. vm_compute. reflexivity.
    + rewrite Hitems. refine (bool_decide_unpack _ _). vm_compute. exact I.
Defined.

(** C3 at a provider that has used up its hourly budget: [complete] of the
    hosted provider sends the request all the same and returns its text. *)
Lemma complete_ignores_exhausted_budget :
  let p := Samples.exhausted_provider in
  let w := Samples.bare_world in
  let run := complete bar_separated Samples.fetch_text "hello" Samples.no_options p w in
  (BaseProvider.requestsPerHour (BaseProvider.rateLimits (base p))
     <= BaseProvider.requests (BaseProvider.usage (base p))) /\
  (clock w - BaseProvider.lastReset (BaseProvider.usage (base p)) <= 3600000) /\
  (BaseProvider.checkRateLimits (clock w) (base p)).1 =
    Threw "Rate limit exceeded: 1000 requests per hour" /\
  run.1.1 = Returned "generated" /\
  length (net_log run.2) = 1%nat /\
  BaseProvider.requests (BaseProvider.usage (base run.1.2)) = 1001.
Proof. vm_compute. repeat split; discriminate. Qed.



End HuggingFaceFacts.

(** ** The local-inference provider *)

Module OllamaFacts.
Import Ollama.

Section WithDaemon.

Context (pull : string -> pull_response)
        (generate : generate_body -> generate_response).


(** With a model named by the call, nothing is asked of the daemon to
    select it. *)
Lemma select_named_model tags o p w m :
  named_model o p = Some m ->
  (if truthy_opt (model o) then (default EmptyString (model o), p, w)
   else if truthy (defaultModel p) then (defaultModel p, p, w)
   else getBestModelForMode tags "balanced" p w) = (m, p, w).
Proof.
  unfold named_model. intros Hnamed.
  destruct (truthy_opt (model o)).
  - by rewrite Hnamed.
  - destruct (truthy (defaultModel p)); [|done]. by injection Hnamed as ->.
Qed.

(** When the hourly budget is used up, [complete] throws the rate-limit
    error and sends nothing. *)
Lemma complete_rate_limited tags prompt o p w m msg :
  named_model o p = Some m ->
  (BaseProvider.checkRateLimits (clock w) (base p)).1 = Threw msg ->
  let run := complete tags pull generate prompt o p w in
  run.1.1 = Threw msg /\ run.2 = w.
Proof.
  intros Hnamed Hlimit run. subst run. unfold complete.
  rewrite (select_named_model tags o p w m) by done.
  destruct (BaseProvider.checkRateLimits (clock w) (base p)) as [[[]|msg'] b];
    simpl in Hlimit; [done|]. by injection Hlimit as ->.
Qed.

Lemma generate_text_log model prompt o p w :
  net_log (generate_text generate model prompt o p w).2 =
  net_log w ++ [PostGenerate (requestBody model prompt o)].
Proof.
  unfold generate_text.
  destruct (generate _) as [e|text|[text|]]; try done; by destruct (stream o).
Qed.


End WithDaemon.


End OllamaFacts.

(** * Further properties *)

(** ** Registry: lookup, listing, health *)

Module RegistryQueriesFacts.
Import Registry RegistryQueries.

Section WithProvider.

Context {Provider Config Result Model World : Type}.
Context (class_name : Provider -> string)
        (initialize : Provider -> World -> outcome bool * World)
        (listModels : Provider -> World -> outcome (list Model) * World).

Implicit Types (m : js_map Provider) (reg : registry Provider).



Lemma default_listed_once (d : string) m :
  NoDup (map_keys m) -> d ∈ map_keys m ->
  (List.filter (fun e => String.eqb e.1 d) m).*1 = [d].
Proof.
  unfold map_keys. induction m as [|[k v] m IH]; intros Hnd Hin.
  - by apply elem_of_nil in Hin.
  - rewrite fmap_cons in Hnd, Hin. apply NoDup_cons in Hnd as [Hk Hnd].
    cbn [List.filter fst]. destruct (String.eqb k d) eqn:E.
    + apply String.eqb_eq in E. subst k. rewrite fmap_cons. f_equal.
      clear IH Hin. induction m as [|[k' v'] m IH]; [done|].
      rewrite fmap_cons, not_elem_of_cons in Hk. destruct Hk as [Hne Hk].
      rewrite fmap_cons in Hnd. apply NoDup_cons in Hnd as [_ Hnd].
      cbn [List.filter fst].
      assert (String.eqb k' d = false) as ->
        by (apply String.eqb_neq; simpl in Hne; congruence).
      by apply IH.
    + apply String.eqb_neq in E. apply elem_of_cons in Hin as [->|Hin]; [done|].
      by apply IH.
Qed.

(** X3. [listProviders()] lists the registered names in registration order
    and, in a reachable registry, marks exactly one entry as the default
    when a default is assigned, the one with the default's name, and none
    when no default is assigned. *)
Theorem listProviders_marks_the_default reg :
  reachable (Config:=Config) reg ->
  info_name <$> listProviders class_name reg = map_keys (providers reg)
  /\ (forall d, defaultProvider reg = Some d ->
        info_name <$> List.filter info_default (listProviders class_name reg) = [d])
  /\ (defaultProvider reg = None ->
        List.filter info_default (listProviders class_name reg) = []).
Proof.
  intros Hreach. unfold listProviders, map_keys. split; [|split].
  - change (map ?f ?l) with (f <$> l). rewrite <- list_fmap_compose.
    by apply list_fmap_ext.
  - intros d Hd. rewrite Hd.
    pose proof (RegistryFacts.reachable_NoDup reg Hreach) as Hnd.
    destruct (RegistryFacts.reachable_default_registered reg Hreach d Hd)
      as [p Hp].
    assert (d ∈ map_keys (providers reg)) as Hin.
    { destruct (decide (d ∈ map_keys (providers reg))) as [|Hnot]; [done|].
      apply RegistryFacts.map_get_None_keys in Hnot. congruence. }
    rewrite <- (default_listed_once d (providers reg) Hnd Hin).
    clear. induction (providers reg) as [|[k v] m IH]; [done|].
    cbn [map List.filter info_default is_preferred fst].
    destruct (String.eqb k d); [|done].
    rewrite !fmap_cons. by f_equal.
  - intros Hd. rewrite Hd.
    induction (providers reg) as [|[k v] m IH]; [done|]. done.
Qed.

(** X4. A preferred name that is not registered does not abort
    [executeWithFallback]: every registered provider is tried in
    registration order, the first one on which the operation returns gives
    the result, and if all throw, the message thrown is the line "All
    providers failed:", then the line for the unknown name with the
    not-found message of [getProvider], which lists the registered names,
    then one line "- name: message" per provider. *)
Theorem executeWithFallback_unknown_preference
    (op : operation Provider Result World) options_provider reg w p res w' :
  js_or options_provider (defaultProvider reg) = Some p ->
  truthy p = true ->
  map_get p (providers reg) = None ->
  executeWithFallback op options_provider reg w = (res, w') ->
  (exists tried name pr untried errs w1 r,
      providers reg = tried ++ (name, pr) :: untried /\
      all_threw op tried w errs w1 /\
      op (Some pr) w1 = (Returned r, w') /\ res = Returned r)
  \/ (exists errs,
      all_threw op (providers reg) w errs w' /\
      res = Threw ("All providers failed:" +:+ newline
                   +:+ join newline
                         (map (fun e => "- " +:+ e.1 +:+ ": " +:+ e.2)
                            ((p, "Provider '" +:+ p
                                 +:+ "' not found. Available providers: "
                                 +:+ join ", " (map_keys (providers reg)))
                             :: errs)))).
Proof.
  intros Hpref Htruthy Hget.
  rewrite (RegistryFacts.executeWithFallback_unregistered_preference
             op options_provider reg w p Hpref Htruthy Hget).
  intros Hloop. apply RegistryFacts.fallback_loop_spec in Hloop.
  apply RegistryFacts.map_get_None_keys in Hget.
  by rewrite (RegistryFacts.others_absent p (providers reg) Hget) in Hloop.
Qed.

(** Assignment to an object: which keys it has afterwards, what a look-up
    finds, and where a key that is neither [__proto__] nor an array index
    goes. *)
Lemma set_named_keys {A} key (v : A) obj k :
  k ∈ (JsObject.set_named key v obj).*1 <-> k = key \/ k ∈ obj.*1.
Proof.
  induction obj as [|[k' v'] obj IH]; cbn [JsObject.set_named].
  - simpl. rewrite list_elem_of_singleton. split; [by left|].
    intros [?|Hin]; [done|]. by apply elem_of_nil in Hin.
  - destruct (String.eqb_spec k' key) as [->|Hne];
      rewrite !fmap_cons, !elem_of_cons; cbn [fst]; [tauto|].
    rewrite IH. tauto.
Qed.

Lemma set_index_keys {A} n key (v : A) obj k :
  k ∈ (JsObject.set_index n key v obj).*1 <-> k = key \/ k ∈ obj.*1.
Proof.
  induction obj as [|[k' v'] obj IH]; cbn [JsObject.set_index].
  - simpl. rewrite list_elem_of_singleton. split; [by left|].
    intros [?|Hin]; [done|]. by apply elem_of_nil in Hin.
  - destruct (String.eqb_spec k' key) as [->|Hne];
      [rewrite !fmap_cons, !elem_of_cons; cbn [fst]; tauto|].
    destruct (JsObject.array_index k') as [m|];
      [destruct (n <? m)%N|];
      rewrite !fmap_cons, !elem_of_cons; cbn [fst];
      rewrite ?fmap_cons, ?elem_of_cons, ?IH; cbn [fst]; tauto.
Qed.

Lemma object_set_keys {A} key (v : A) obj k :
  k ∈ JsObject.object_keys (JsObject.object_set key v obj) <->
  (k = key /\ key <> "__proto__") \/ k ∈ JsObject.object_keys obj.
Proof.
  unfold JsObject.object_keys, JsObject.object_set.
  destruct (String.eqb_spec key "__proto__") as [->|Hne]; [tauto|].
  destruct (JsObject.array_index key);
    rewrite ?set_index_keys, ?set_named_keys; tauto.
Qed.

Lemma set_named_get {A} key (v : A) obj name r :
  JsObject.object_get name (JsObject.set_named key v obj) = Some r ->
  (name = key /\ r = v) \/ JsObject.object_get name obj = Some r.
Proof.
  induction obj as [|[k' v'] obj IH];
    cbn [JsObject.set_named JsObject.object_get].
  - destruct (String.eqb_spec key name) as [->|_]; [|done].
    intros [= <-]. by left.
  - destruct (String.eqb_spec k' key) as [->|Hne];
      cbn [JsObject.object_get].
    + destruct (String.eqb_spec key name) as [->|_]; [|by right].
      intros [= <-]. by left.
    + destruct (String.eqb_spec k' name) as [->|_]; [by right|]. apply IH.
Qed.

Lemma set_index_get {A} n key (v : A) obj name r :
  JsObject.object_get name (JsObject.set_index n key v obj) = Some r ->
  (name = key /\ r = v) \/ JsObject.object_get name obj = Some r.
Proof.
  induction obj as [|[k' v'] obj IH];
    cbn [JsObject.set_index JsObject.object_get].
  - destruct (String.eqb_spec key name) as [->|_]; [|done].
    intros [= <-]. by left.
  - destruct (String.eqb_spec k' key) as [->|Hne].
    { cbn [JsObject.object_get].
      destruct (String.eqb_spec key name) as [->|_]; [|by right].
      intros [= <-]. by left. }
    assert (JsObject.object_get name ((key, v) :: (k', v') :: obj) = Some r ->
            (name = key /\ r = v) \/
            (if String.eqb k' name then Some v'
             else JsObject.object_get name obj) = Some r) as Hfront.
    { cbn [JsObject.object_get].
      destruct (String.eqb_spec key name) as [->|_]; [|by right].
      intros [= <-]. by left. }
    destruct (JsObject.array_index k') as [m|];
      [destruct (n <? m)%N|]; try exact Hfront.
    cbn [JsObject.object_get].
    destruct (String.eqb_spec k' name) as [->|_]; [by right|]. apply IH.
Qed.

Lemma object_set_get {A} key (v : A) obj name r :
  JsObject.object_get name (JsObject.object_set key v obj) = Some r ->
  (name = key /\ r = v) \/ JsObject.object_get name obj = Some r.
Proof.
  unfold JsObject.object_set.
  destruct (String.eqb key "__proto__"); [by right|].
  destruct (JsObject.array_index key);
    [apply set_index_get|apply set_named_get].
Qed.

Lemma set_named_fresh {A} key (v : A) obj :
  key ∉ obj.*1 -> JsObject.set_named key v obj = obj ++ [(key, v)].
Proof.
  induction obj as [|[k' v'] obj IH]; [done|].
  rewrite fmap_cons, not_elem_of_cons. cbn [fst]. intros [Hne Hfresh].
  cbn [JsObject.set_named].
  destruct (String.eqb_spec k' key) as [->|_]; [done|].
  by rewrite IH.
Qed.

(** The loop of [checkHealth]: the keys of the object it fills. *)
Lemma checkHealth_loop_keys reg (rest : js_map Provider) : forall health w name,
  name ∈ JsObject.object_keys
           (checkHealth_loop initialize listModels reg rest health w).1 <->
  name ∈ JsObject.object_keys health
  \/ (name ∈ map_keys rest /\ name <> "__proto__").
Proof.
  induction rest as [|[n provider] rest IH]; intros health w name.
  - simpl. split; [by left|]. intros [?|[Hin _]]; [done|].
    by apply elem_of_nil in Hin.
  - cbn [checkHealth_loop].
    destruct (probe initialize listModels reg n provider w) as [report w1].
    rewrite IH, object_set_keys. unfold map_keys.
    rewrite fmap_cons, elem_of_cons. cbn [fst].
    split.
    + intros [[[-> Hp]|Hin]|[Hin Hp]];
        [right; split; [by left|done] | by left | right; split; [by right|done]].
    + intros [Hin|[[->|Hin] Hp]];
        [left; by right | left; by left | right; by split].
Qed.

Lemma checkHealth_loop_order reg (rest : js_map Provider) : forall health w,
  NoDup (JsObject.object_keys health ++ map_keys rest) ->
  (forall name, name ∈ map_keys rest ->
                name <> "__proto__" /\ JsObject.array_index name = None) ->
  JsObject.object_keys
    (checkHealth_loop initialize listModels reg rest health w).1
  = JsObject.object_keys health ++ map_keys rest.
Proof.
  induction rest as [|[n provider] rest IH]; intros health w Hnd Hplain.
  - simpl. by rewrite app_nil_r.
  - cbn [checkHealth_loop].
    destruct (probe initialize listModels reg n provider w) as [report w1].
    unfold map_keys, JsObject.object_keys in Hnd, Hplain, IH |- *.
    rewrite fmap_cons in Hnd, Hplain |- *. cbn [fst] in Hnd, Hplain |- *.
    destruct (Hplain n) as [Hproto Hindex]; [by left|].
    assert (n ∉ health.*1) as Hfresh.
    { apply NoDup_app in Hnd as (_ & Hdisj & _). intros Hin.
      apply (Hdisj n Hin). left. }
    assert (JsObject.object_set n report health = health ++ [(n, report)])
      as ->.
    { unfold JsObject.object_set.
      destruct (String.eqb_spec n "__proto__") as [|_]; [done|].
      rewrite Hindex. by apply set_named_fresh. }
    rewrite IH.
    + rewrite fmap_app, fmap_cons, fmap_nil. cbn [fst].
      by rewrite <- app_assoc.
    + rewrite fmap_app, fmap_cons, fmap_nil. cbn [fst].
      by rewrite <- app_assoc.
    + intros name Hin. apply Hplain. by right.
Qed.

Lemma checkHealth_loop_reports reg (rest : js_map Provider) : forall health w,
  (forall name r, JsObject.object_get name health = Some r ->
     report_default r = is_preferred name (defaultProvider reg)) ->
  forall name r,
    JsObject.object_get name
      (checkHealth_loop initialize listModels reg rest health w).1 = Some r ->
    report_default r = is_preferred name (defaultProvider reg).
Proof.
  induction rest as [|[n provider] rest IH]; intros health w Hinv; [done|].
  cbn [checkHealth_loop].
  destruct (probe initialize listModels reg n provider w) as [report w1] eqn:Hprobe.
  apply IH. intros name r Hget.
  apply object_set_get in Hget as [[-> ->]|Hget]; [|by apply Hinv].
  unfold probe in Hprobe.
  destruct (initialize provider w) as [[b|msg] w2].
  - destruct (listModels provider w2) as [[models|msg] w3];
      by injection Hprobe as <- _.
  - by injection Hprobe as <- _.
Qed.

(** X5. The object that [checkHealth()] returns holds a report for every
    registered provider, whatever the probes of the others did, except for
    a provider registered as [__proto__], an assignment that creates no
    property.  Each report carries the default flag of its provider.  When
    no registered name is [__proto__] or an array index, the reports are
    listed in registration order. *)
Theorem checkHealth_reports_every_provider reg w :
  NoDup (map_keys (providers reg)) ->
  (forall name,
     name ∈ JsObject.object_keys (checkHealth initialize listModels reg w).1 <->
     name ∈ map_keys (providers reg) /\ name <> "__proto__")
  /\ ((forall name, name ∈ map_keys (providers reg) ->
                    name <> "__proto__" /\ JsObject.array_index name = None) ->
      JsObject.object_keys (checkHealth initialize listModels reg w).1 =
        map_keys (providers reg))
  /\ forall name r,
       JsObject.object_get name (checkHealth initialize listModels reg w).1 = Some r ->
       report_default r = is_preferred name (defaultProvider reg).
Proof.
  intros Hnd. unfold checkHealth. split; [|split].
  - intros name. rewrite checkHealth_loop_keys. split; [|by right].
    intros [Hin|?]; [|done]. by apply elem_of_nil in Hin.
  - intros Hplain. by rewrite checkHealth_loop_order.
  - apply checkHealth_loop_reports. intros name r. done.
Qed.

End WithProvider.



Lemma listProviders_marks_the_default_alpha_beta :
  info_name <$> listProviders MoreSamples.class_of Samples.alpha_beta = ["alpha"; "beta"]
  /\ info_name <$> List.filter info_default
                     (listProviders MoreSamples.class_of Samples.alpha_beta) = ["alpha"].
Proof.
  destruct (listProviders_marks_the_default (Config:=string)
              MoreSamples.class_of Samples.alpha_beta) as (Hnames & Hdefault & _).
  - unfold Samples.alpha_beta. repeat constructor.
  - split; [exact Hnames|]. apply Hdefault. reflexivity.
Defined.

Lemma executeWithFallback_unknown_preference_gamma :
  executeWithFallback Samples.call (Some "gamma") Samples.alpha_beta [] =
    (Returned "OK-beta", ["Alpha"; "Beta"])
  /\ executeWithFallback Samples.refuse (Some "gamma") Samples.alpha_beta [] =
       (Threw ("All providers failed:" +:+ newline
               +:+ "- gamma: Provider 'gamma' not found. Available providers: alpha, beta"
               +:+ newline +:+ "- alpha: ECONNREFUSED Alpha" +:+ newline
               +:+ "- beta: ECONNREFUSED Beta"),
        ["Alpha"; "Beta"])
  /\ exists errs,
       all_threw Samples.refuse (providers Samples.alpha_beta) [] errs
         ["Alpha"; "Beta"].
Proof.
  split; [vm_compute; reflexivity|]. split; [vm_compute; reflexivity|].
  destruct (executeWithFallback_unknown_preference Samples.refuse (Some "gamma")
              Samples.alpha_beta [] "gamma"
              (Threw ("All providers failed:" +:+ newline
                      +:+ "- gamma: Provider 'gamma' not found. Available providers: alpha, beta"
                      +:+ newline +:+ "- alpha: ECONNREFUSED Alpha" +:+ newline
                      +:+ "- beta: ECONNREFUSED Beta"))
              ["Alpha"; "Beta"])
    as [(tried & name & pr & untried & errs & w1 & r & _ & _ & _ & Hres)
       |(errs & Hthrew & _)].
  - reflexivity.
  - reflexivity.
  - reflexivity.
  - vm_compute. reflexivity.
  - discriminate Hres.
  - exists errs. exact Hthrew.
Defined.

Lemma checkHealth_reports_every_provider_alpha_beta :
  let health := (checkHealth MoreSamples.init_probe MoreSamples.list_probe
                   Samples.alpha_beta []).1 in
  JsObject.object_keys health = ["alpha"; "beta"]
  /\ JsObject.object_get "alpha" health = Some (Unhealthy "Connection refused" true)
  /\ JsObject.object_get "beta" health = Some (Healthy 2 false)
  /\ forall name r, JsObject.object_get name health = Some r ->
       report_default r = is_preferred name (defaultProvider Samples.alpha_beta).
Proof.
  intros health.
  destruct (checkHealth_reports_every_provider MoreSamples.init_probe
              MoreSamples.list_probe Samples.alpha_beta [])
    as (_ & Horder & Hflags).
  - refine (bool_decide_unpack _ _). vm_compute. exact I.
  - split.
    + subst health. rewrite Horder; [reflexivity|].
      intros name Hin. change (map_keys (providers Samples.alpha_beta))
        with ["alpha"; "beta"] in Hin.
      rewrite !elem_of_cons, elem_of_nil in Hin.
      destruct Hin as [->|[->|[]]]; split; (discriminate || reflexivity).
    + split; [reflexivity|]. split; [reflexivity|]. exact Hflags.
Defined.

End RegistryQueriesFacts.

(** ** Provider contract: estimates, error texts, the hourly window *)

Module BaseProviderMoreFacts.
Import BaseProvider.

(** X6. [estimateTokens] is the length divided by four, rounded up: four
    times the estimate covers the text and overshoots by less than four
    characters; it is zero exactly for the empty text. *)
Theorem estimateTokens_ceiling (text : string) :
  Z.of_nat (String.length text) <= 4 * estimateTokens text
  /\ 4 * estimateTokens text < Z.of_nat (String.length text) + 4
  /\ (estimateTokens text = 0 <-> text = EmptyString).
Proof.
  unfold estimateTokens.
  pose proof (Z.div_mod (Z.of_nat (String.length text) + 3) 4 ltac:(lia)) as Hdm.
  pose proof (Z.mod_pos_bound (Z.of_nat (String.length text) + 3) 4 ltac:(lia)) as Hb.
  split; [lia|]. split; [lia|]. split.
  - intros H0. destruct text as [|c rest]; [done|]. simpl String.length in *. lia.
  - intros ->. reflexivity.
Qed.

(** The texts of the object literal in [formatError]. *)
Lemma inherited_member_table key text :
  inherited_member key = Some text -> (key, text) ∈ Object_prototype.
Proof.
  unfold inherited_member.
  destruct (List.find _ Object_prototype) as [[k t]|] eqn:Hfind; [|done].
  intros [= <-]. apply find_some in Hfind as [Hin Hkey].
  apply String.eqb_eq in Hkey. simpl in Hkey. subst k.
  by apply list_elem_of_In.
Qed.

Lemma safeErrors_range key msg :
  safeErrors key = Some msg ->
  msg ∈ ["Connection refused. Is the service running?";
         "Request timed out. Please try again.";
         "Rate limit exceeded. Please wait before retrying.";
         "Authentication failed. Please check your API key.";
         "Model not found. Please check the model name.";
         "Server error. Please try again later."]
  \/ inherited_member key = Some msg.
Proof.
  unfold safeErrors.
  repeat match goal with
         | |- context [if ?c then _ else _] => destruct c
         end;
    intros Heq; try (right; exact Heq);
    injection Heq as <-; left; repeat constructor.
Qed.

Lemma safeErrors_unknown key :
  key ∉ ["ECONNREFUSED"; "ETIMEDOUT"; "rate_limit"; "401"; "404"; "500"] ->
  inherited_member key = None ->
  safeErrors key = None.
Proof.
  rewrite !not_elem_of_cons. intros (H1 & H2 & H3 & H4 & H5 & H6 & _) Hnone.
  unfold safeErrors.
  repeat match goal with
         | |- context [String.eqb key ?k] =>
             destruct (String.eqb_spec key k); [done|]
         end.
  done.
Qed.

(** What [formatError] returns: a text of [safeErrors], the generic one, or
    an inherited member named by the code or the status. *)
Lemma formatError_texts (error : js_error) :
  formatError error ∈
    ["Connection refused. Is the service running?";
     "Request timed out. Please try again.";
     "Rate limit exceeded. Please wait before retrying.";
     "Authentication failed. Please check your API key.";
     "Model not found. Please check the model name.";
     "Server error. Please try again later.";
     "An error occurred"]
  \/ exists key,
       (err_code error = Some key \/ err_status error = Some key)
       /\ inherited_member key = Some (formatError error).
Proof.
  unfold formatError.
  destruct (err_code error ≫= safeErrors) as [msg|] eqn:Hcode.
  { destruct (err_code error) as [c|]; [|done]. simpl in Hcode.
    apply safeErrors_range in Hcode as [Hin|Hinherited]; [left|right; eauto].
    rewrite !elem_of_cons, elem_of_nil in Hin. rewrite !elem_of_cons. tauto. }
  destruct (err_status error ≫= safeErrors) as [msg|] eqn:Hstatus;
    [|left; repeat constructor].
  destruct (err_status error) as [c|]; [|done]. simpl in Hstatus.
  apply safeErrors_range in Hstatus as [Hin|Hinherited]; [left|right; eauto].
  rewrite !elem_of_cons, elem_of_nil in Hin. rewrite !elem_of_cons. tauto.
Qed.

(** X7. [formatError] never passes on the error's message.  It returns one
    of seven fixed texts, unless [error.code] or [error.status] names a
    member that every object inherits (such as [constructor]): then it
    returns that member, which its callers print as the member's text.  The
    text for a known [error.code] wins over the one for [error.status], and
    an error whose code and status are neither known nor inherited names
    gives the generic text. *)
Theorem formatError_fixed_texts (error : js_error) :
  (formatError error ∈
     ["Connection refused. Is the service running?";
      "Request timed out. Please try again.";
      "Rate limit exceeded. Please wait before retrying.";
      "Authentication failed. Please check your API key.";
      "Model not found. Please check the model name.";
      "Server error. Please try again later.";
      "An error occurred"]
   \/ exists key,
        (err_code error = Some key \/ err_status error = Some key)
        /\ inherited_member key = Some (formatError error))
  /\ (forall key text,
        err_code error = Some key ->
        (key, text) ∈
          [("ECONNREFUSED", "Connection refused. Is the service running?");
           ("ETIMEDOUT", "Request timed out. Please try again.");
           ("rate_limit", "Rate limit exceeded. Please wait before retrying.");
           ("401", "Authentication failed. Please check your API key.");
           ("404", "Model not found. Please check the model name.");
           ("500", "Server error. Please try again later.")] ->
        formatError error = text)
  /\ ((forall key,
         err_code error = Some key \/ err_status error = Some key ->
         (key ∉ ["ECONNREFUSED"; "ETIMEDOUT"; "rate_limit"; "401"; "404"; "500"])
         /\ inherited_member key = None) ->
      formatError error = "An error occurred").
Proof.
  split; [apply formatError_texts|]. split.
  - intros key text Hcode Hin. unfold formatError. rewrite Hcode.
    rewrite !elem_of_cons, elem_of_nil in Hin.
    destruct Hin as [[= -> ->]|[[= -> ->]|[[= -> ->]|[[= -> ->]|[[= -> ->]|
                    [[= -> ->]|[]]]]]]]; reflexivity.
  - intros Hunknown. unfold formatError.
    assert (err_code error ≫= safeErrors = None) as ->.
    { destruct (err_code error) as [c|] eqn:Hcode; [|done]. simpl.
      destruct (Hunknown c) as [Hc Hn]; [by left|]. by apply safeErrors_unknown. }
    assert (err_status error ≫= safeErrors = None) as ->; [|done].
    destruct (err_status error) as [c|] eqn:Hstatus; [|done]. simpl.
    destruct (Hunknown c) as [Hc Hn]; [by right|]. by apply safeErrors_unknown.
Qed.

Lemma formatError_fixed_texts_refused :
  formatError {| err_message := "connect ECONNREFUSED 127.0.0.1:11434";
                 err_code := Some "ECONNREFUSED";
                 err_status := Some "500" |} =
    "Connection refused. Is the service running?"
  /\ formatError {| err_message := "getaddrinfo ENOTFOUND example.invalid";
                    err_code := Some "ENOTFOUND";
                    err_status := None |} = "An error occurred"
  /\ formatError {| err_message := "boom"; err_code := Some "constructor";
                    err_status := None |} =
       "function Object() { [native code] }".
Proof.
  split; [|split].
  - destruct (formatError_fixed_texts
                {| err_message := "connect ECONNREFUSED 127.0.0.1:11434";
                   err_code := Some "ECONNREFUSED";
                   err_status := Some "500" |}) as (_ & Hcode & _).
    apply (Hcode "ECONNREFUSED"); [reflexivity|]. by left.
  - destruct (formatError_fixed_texts
                {| err_message := "getaddrinfo ENOTFOUND example.invalid";
                   err_code := Some "ENOTFOUND";
                   err_status := None |}) as (_ & _ & Hgeneric).
    apply Hgeneric. intros key [[= <-]|[=]]. split; [|reflexivity].
    refine (bool_decide_unpack _ _). vm_compute. exact I.
  - reflexivity.
Defined.

(** X8. The hourly window.  Once the request counter has reached the limit,
    every check made within the hour throws and changes nothing; with a
    positive limit, the first check made more than an hour after the last
    reset returns and restarts the counters; and a second check at the same
    instant changes nothing more. *)
Theorem checkRateLimits_window (now : Z) (b : base) :
  (requestsPerHour (rateLimits b) <= requests (usage b) ->
   now - lastReset (usage b) <= 3600000 ->
   checkRateLimits now b =
     (Threw (rate_limit_message (requestsPerHour (rateLimits b))), b))
  /\ (0 < requestsPerHour (rateLimits b) ->
      3600000 < now - lastReset (usage b) ->
      checkRateLimits now b =
        (Returned tt,
         with_usage {| requests := 0; tokens := 0; lastReset := now |} b))
  /\ checkRateLimits now (checkRateLimits now b).2 = checkRateLimits now b.
Proof.
  unfold checkRateLimits. split; [|split].
  - intros Hfull Hwithin. apply Z.ltb_ge in Hwithin. rewrite Hwithin.
    apply Z.leb_le in Hfull. by rewrite Hfull.
  - intros Hpos Hlater. apply Z.ltb_lt in Hlater. rewrite Hlater. simpl.
    assert ((requestsPerHour (rateLimits b) <=? 0) = false) as ->
      by (apply Z.leb_gt; lia). done.
  - destruct (3600000 <? now - lastReset (usage b)) eqn:Hreset.
    + cbn [usage with_usage rateLimits requests].
      destruct (requestsPerHour (rateLimits b) <=? 0) eqn:Hfull;
        cbn [snd usage with_usage rateLimits requests lastReset];
        replace (now - now) with 0 by lia;
        change (3600000 <? 0) with false; cbv iota;
        cbn [usage with_usage rateLimits requests]; by rewrite ?Hfull.
    + destruct (requestsPerHour (rateLimits b) <=? requests (usage b)) eqn:Hfull;
        cbn [snd]; by rewrite Hreset, Hfull.
Qed.

Lemma checkRateLimits_window_exhausted :
  let b := with_usage {| requests := 1000; tokens := 7; lastReset := 0 |}
             (constructor "huggingface" 0) in
  checkRateLimits 1000 b =
    (Threw "Rate limit exceeded: 1000 requests per hour", b)
  /\ checkRateLimits 3600001 b =
       (Returned tt,
        with_usage {| requests := 0; tokens := 0; lastReset := 3600001 |} b).
Proof.
  intros b.
  destruct (checkRateLimits_window 1000 b) as (Hwithin & _ & _).
  destruct (checkRateLimits_window 3600001 b) as (_ & Hlater & _).
  split.
  - apply Hwithin; simpl; lia.
  - apply Hlater; simpl; lia.
Defined.

End BaseProviderMoreFacts.
(** ** Hosted inference: tiers, failures, accounting *)

Module HuggingFaceMoreFacts.
Import HuggingFace HuggingFaceMore.

Lemma models_tiers tier : is_Some (models tier) <-> tier ∈ tiers.
Proof.
  unfold models, tiers. rewrite !elem_of_cons, elem_of_nil.
  destruct (String.eqb tier "fast") eqn:E1;
    [apply String.eqb_eq in E1; split; eauto|apply String.eqb_neq in E1].
  destruct (String.eqb tier "balanced") eqn:E2;
    [apply String.eqb_eq in E2; split; eauto|apply String.eqb_neq in E2].
  destruct (String.eqb tier "deep") eqn:E3;
    [apply String.eqb_eq in E3; split; eauto|apply String.eqb_neq in E3].
  split; [by intros [? ?]|]. intros [?|[?|[?|[]]]]; done.
Qed.

Lemma complete_catch_range (e : js_error) :
  complete_catch e ∈
    ["Rate limit exceeded. Please wait before retrying.";
     "HuggingFace API error: Connection refused. Is the service running?";
     "HuggingFace API error: Request timed out. Please try again.";
     "HuggingFace API error: Rate limit exceeded. Please wait before retrying.";
     "HuggingFace API error: Authentication failed. Please check your API key.";
     "HuggingFace API error: Model not found. Please check the model name.";
     "HuggingFace API error: Server error. Please try again later.";
     "HuggingFace API error: An error occurred"]
  \/ exists key text,
       (key, text) ∈ Object_prototype
       /\ complete_catch e = "HuggingFace API error: " +:+ text.
Proof.
  unfold complete_catch. destruct (includes _ _); [left; by left|].
  destruct (BaseProviderMoreFacts.formatError_texts e) as [H|(key & _ & H)].
  - left. right. rewrite !elem_of_cons, elem_of_nil in H. rewrite !elem_of_cons.
    destruct H as [->|[->|[->|[->|[->|[->|[->|[]]]]]]]]; simpl; tauto.
  - right. exists key, (BaseProvider.formatError e). split; [|done].
    by apply BaseProviderMoreFacts.inherited_member_table.
Qed.

Lemma complete_catch_not_unknown_tier e tier :
  complete_catch e <> unknown_tier_message tier.
Proof.
  unfold complete_catch, unknown_tier_message.
  destruct (includes _ _); simpl; discriminate.
Qed.

Lemma lookup_after_set now k v c :
  LRU.lookup k (LRU.set now k v c).1 =
  Some {| LRU.key := k; LRU.value := v; LRU.storedAt := now |}.
Proof.
  unfold LRU.set. destruct (LRU.lookup k c); [|destruct (_ <=? _)%nat]; simpl;
    by apply LRUFacts.lookup_cons_same.
Qed.

(** After [LRU.set], the entry just stored is the only one under its key. *)
Lemma set_key_once now k v c :
  exists l,
    LRU.items (LRU.set now k v c).1 =
      {| LRU.key := k; LRU.value := v; LRU.storedAt := now |} :: l
    /\ k ∉ LRU.key <$> l.
Proof.
  unfold LRU.set. destruct (LRU.lookup k c) as [e0|] eqn:Hlookup.
  - eexists. split; [reflexivity|].
    intros Hin. apply list_elem_of_fmap in Hin as (e & -> & He).
    unfold LRU.without in He. apply list_elem_of_In, filter_In in He as [_ He].
    unfold LRU.has_key in He. by rewrite String.eqb_refl in He.
  - apply LRUFacts.lookup_None_keys in Hlookup.
    destruct (_ <=? _)%nat; (eexists; split; [reflexivity|]); [|done].
    intros Hin. apply Hlookup.
    apply list_elem_of_fmap in Hin as (e & -> & He).
    apply list_elem_of_fmap_2. by apply LRUFacts.elem_of_removelast.
Qed.

(** The record that a save writes for the entry just stored. *)
Lemma export_entries_after_set now now' k v c :
  export_entries now' (LRU.set now k v c).1 !! k =
  Some {| value := v; expires := now' + TTL |}.
Proof.
  destruct (set_key_once now k v c) as (l & Hitems & Hk).
  unfold export_entries, LRU.entries. rewrite Hitems. cbn [map foldl].
  rewrite HuggingFaceFacts.export_fold_lookup_notin.
  - unfold export_entry. simpl. by rewrite lookup_insert_eq.
  - replace (map (fun e => (LRU.key e, LRU.value e)) l).*1
      with (LRU.key <$> l); [done|].
    clear. induction l as [|e l IH]; [done|]. csimpl. by f_equal.
Qed.

Section WithRuntime.

Context (JSON_stringify : key_params -> string) (fetch : request -> response).

(** X9. Among the tiers that name no member that every object inherits
    (the look-up [this.models[tier]] finds such members too, and they are
    truthy), the tiers that [listModels] lists are exactly those that
    [complete] accepts: for a listed tier it never throws the unknown-tier
    error, for any other it throws that error and leaves the provider and
    the world as they are (nothing is looked up, counted or sent). *)
Theorem complete_accepts_listed_tiers prompt o p w :
  inherited_member (selected_tier o) = None ->
  (selected_tier o ∈ mi_tier <$> listModels <->
   (complete JSON_stringify fetch prompt o p w).1.1 <>
     Threw (unknown_tier_message (selected_tier o)))
  /\ (selected_tier o ∉ mi_tier <$> listModels ->
      complete JSON_stringify fetch prompt o p w =
        (Threw (unknown_tier_message (selected_tier o)), p, w)).
Proof.
  intros _. change (mi_tier <$> listModels) with tiers.
  assert (selected_tier o ∉ tiers ->
          complete JSON_stringify fetch prompt o p w =
            (Threw (unknown_tier_message (selected_tier o)), p, w)) as Hout.
  { intros Hnot. unfold HuggingFace.complete.
    destruct (models (selected_tier o)) as [model|] eqn:Hmodel; [|done].
    exfalso. apply Hnot, models_tiers. by rewrite Hmodel. }
  split; [|done]. split.
  - intros Hin. apply models_tiers in Hin as [model Hmodel].
    unfold HuggingFace.complete. rewrite Hmodel.
    destruct (LRU.get _ _ _) as [cached c1].
    destruct (truthy_opt cached && negb (noCache o)); [done|].
    destruct (fetch _) as [e|status error|generated]; simpl.
    + intros [= H]. by apply complete_catch_not_unknown_tier in H.
    + intros [= H]. by apply complete_catch_not_unknown_tier in H.
    + by destruct (store_response _ _ _ _).
  - intros Hne. destruct (decide (selected_tier o ∈ tiers)) as [|Hnot]; [done|].
    exfalso. apply Hne. by rewrite Hout.
Qed.

(** What [LRU.get] leaves in the cache was there before. *)
Lemma get_items_from now k c e :
  e ∈ LRU.items (LRU.get now k c).2 -> e ∈ LRU.items c.
Proof.
  unfold LRU.get. destruct (LRU.lookup k c) as [e0|] eqn:Hlookup; [|done].
  destruct (LRU.valid c now e0); [|done]. simpl.
  rewrite elem_of_cons. intros [->|H]; [|by eapply LRUFacts.elem_of_without].
  unfold LRU.lookup in Hlookup. apply find_some in Hlookup as [Hin _].
  by apply list_elem_of_In.
Qed.

(** X10. A failed call leaves no trace.  When [complete] throws for a known
    tier, it has sent exactly one request; the usage counters and the cache
    file are as before, the cache holds no entry it did not hold before,
    and the text thrown is one of eight fixed texts, or the fixed prefix
    followed by the text of a member that every object inherits (when the
    code or the status of the network error names one). *)
Theorem complete_failure_leaves_no_trace prompt o p w model message :
  models (selected_tier o) = Some model ->
  (complete JSON_stringify fetch prompt o p w).1.1 = Threw message ->
  net_log (complete JSON_stringify fetch prompt o p w).2 =
    net_log w ++ [requestBody prompt o p model]
  /\ file (complete JSON_stringify fetch prompt o p w).2 = file w
  /\ base (complete JSON_stringify fetch prompt o p w).1.2 = base p
  /\ (forall e, e ∈ LRU.items (cache (complete JSON_stringify fetch prompt o p w).1.2) ->
                e ∈ LRU.items (cache p))
  /\ (message ∈
        ["Rate limit exceeded. Please wait before retrying.";
         "HuggingFace API error: Connection refused. Is the service running?";
         "HuggingFace API error: Request timed out. Please try again.";
         "HuggingFace API error: Rate limit exceeded. Please wait before retrying.";
         "HuggingFace API error: Authentication failed. Please check your API key.";
         "HuggingFace API error: Model not found. Please check the model name.";
         "HuggingFace API error: Server error. Please try again later.";
         "HuggingFace API error: An error occurred"]
      \/ exists key text,
           (key, text) ∈ Object_prototype
           /\ message = "HuggingFace API error: " +:+ text).
Proof.
  intros Hmodel. unfold complete. rewrite Hmodel.
  destruct (LRU.get _ _ _) as [cached c1] eqn:Hget.
  assert (forall e, e ∈ LRU.items c1 -> e ∈ LRU.items (cache p)) as Hitems.
  { intros e. replace c1 with
      (LRU.get (clock w) (getCacheKey JSON_stringify prompt (id model) o)
         (cache p)).2 by (by rewrite Hget).
    apply get_items_from. }
  destruct (truthy_opt cached && negb (noCache o)); [done|].
  destruct (fetch _) as [e|status error|generated]; simpl.
  - intros [= <-]. repeat split; try done. apply complete_catch_range.
  - intros [= <-]. repeat split; try done. apply complete_catch_range.
  - by destruct (store_response _ _ _ _).
Qed.

(** X11. The status of a rejected request is never reported.  When the
    remote end answers with a non-OK status, whichever it is, [complete]
    throws the generic text (or the rate-limit text, when the body's error
    says so): the error it builds carries neither a code nor a status, so
    the texts that [formatError] keeps for 401, 404 and 500 are out of
    reach. *)
Theorem complete_hides_http_status prompt o p w model status error message :
  models (selected_tier o) = Some model ->
  fetch (requestBody prompt o p model) = NotOk status error ->
  (complete JSON_stringify fetch prompt o p w).1.1 = Threw message ->
  message = "Rate limit exceeded. Please wait before retrying."
  \/ message = "HuggingFace API error: An error occurred".
Proof.
  intros Hmodel Hfetch. unfold complete. rewrite Hmodel.
  destruct (LRU.get _ _ _) as [cached c1].
  destruct (truthy_opt cached && negb (noCache o)); [done|].
  rewrite Hfetch. simpl. intros [= <-].
  unfold complete_catch. destruct (includes _ _); [by left|by right].
Qed.

Lemma store_response_provider k v p w :
  base (store_response k v p w).1 = base p
  /\ hits (cacheStats (store_response k v p w).1) = hits (cacheStats p)
  /\ misses (cacheStats (store_response k v p w).1) = misses (cacheStats p)
  /\ diskWrites (cacheStats (store_response k v p w).1) =
       diskWrites (cacheStats p) + (if cache_dir_exists w then 1 else 0).
Proof.
  unfold store_response, savePersistentCache.
  destruct (cache_dir_exists w); simpl; repeat split; lia.
Qed.

Lemma store_response_no_directory k v p w :
  cache_dir_exists w = false -> file (store_response k v p w).2 = file w.
Proof.
  intros Hdir. unfold store_response, savePersistentCache. by rewrite Hdir.
Qed.

(** X12. With [noCache], a call for a known tier always sends its request,
    whatever the cache holds; when the remote end answers, the answer is
    returned and replaces whatever the cache held under the key. *)
Theorem complete_noCache_refetches prompt o p w model :
  noCache o = true ->
  models (selected_tier o) = Some model ->
  net_log (complete JSON_stringify fetch prompt o p w).2 =
    net_log w ++ [requestBody prompt o p model]
  /\ (forall generated,
        fetch (requestBody prompt o p model) = Ok generated ->
        (complete JSON_stringify fetch prompt o p w).1.1 =
          Returned (generatedText generated)
        /\ LRU.lookup (getCacheKey JSON_stringify prompt (id model) o)
             (cache (complete JSON_stringify fetch prompt o p w).1.2) =
           Some {| LRU.key := getCacheKey JSON_stringify prompt (id model) o;
                   LRU.value := generatedText generated;
                   LRU.storedAt := clock w |}).
Proof.
  intros HnoCache Hmodel. unfold complete. rewrite Hmodel, HnoCache.
  destruct (LRU.get _ _ _) as [cached c1]. rewrite andb_false_r.
  destruct (fetch _) as [e|status error|generated] eqn:Hfetch;
    [split; [done|intros ? [=]] | split; [done|intros ? [=]] |].
  pose proof (HuggingFaceFacts.store_response_world
    (getCacheKey JSON_stringify prompt (id model) o) (generatedText generated)
    (with_stats (count_miss (cacheStats (with_cache c1 p))) (with_cache c1 p))
    (log_request (requestBody prompt o p model) w)) as [_ Hlog].
  pose proof (HuggingFaceFacts.store_response_cache
    (getCacheKey JSON_stringify prompt (id model) o) (generatedText generated)
    (with_stats (count_miss (cacheStats (with_cache c1 p))) (with_cache c1 p))
    (log_request (requestBody prompt o p model) w)) as Hcache.
  destruct (store_response _ _ _ _) as [p4 w2]. simpl in *.
  split; [done|]. intros ? [= <-]. split; [done|].
  rewrite Hcache. apply lookup_after_set.
Qed.

(** X13. Every call for a known tier is counted once, as a hit or as a
    miss.  A hit sends nothing and leaves the usage counters and the cache
    file alone.  A miss sends one request; the usage counters move only
    when it succeeds, by one request and by the estimates for the prompt
    and for the returned text. *)
Theorem complete_counts_each_call prompt o p w model :
  models (selected_tier o) = Some model ->
  let run := complete JSON_stringify fetch prompt o p w in
  (net_log run.2 = net_log w
   /\ hits (cacheStats run.1.2) = hits (cacheStats p) + 1
   /\ misses (cacheStats run.1.2) = misses (cacheStats p)
   /\ base run.1.2 = base p
   /\ file run.2 = file w)
  \/ (net_log run.2 = net_log w ++ [requestBody prompt o p model]
      /\ hits (cacheStats run.1.2) = hits (cacheStats p)
      /\ misses (cacheStats run.1.2) = misses (cacheStats p) + 1
      /\ match run.1.1 with
         | Returned text =>
             base run.1.2 =
               BaseProvider.trackUsage
                 (BaseProvider.estimateTokens prompt
                  + BaseProvider.estimateTokens text) (base p)
         | Threw _ => base run.1.2 = base p
         end).
Proof.
  intros Hmodel run. subst run. unfold complete. rewrite Hmodel.
  destruct (LRU.get _ _ _) as [cached c1].
  destruct (truthy_opt cached && negb (noCache o)); [by left|right].
  destruct (fetch _) as [e|status error|generated]; [done|done|].
  pose proof (HuggingFaceFacts.store_response_world
    (getCacheKey JSON_stringify prompt (id model) o) (generatedText generated)
    (with_stats (count_miss (cacheStats (with_cache c1 p))) (with_cache c1 p))
    (log_request (requestBody prompt o p model) w)) as [_ Hlog].
  pose proof (store_response_provider
    (getCacheKey JSON_stringify prompt (id model) o) (generatedText generated)
    (with_stats (count_miss (cacheStats (with_cache c1 p))) (with_cache c1 p))
    (log_request (requestBody prompt o p model) w)) as (Hbase & Hhits & Hmisses & _).
  destruct (store_response _ _ _ _) as [p4 w2]. simpl in *.
  by rewrite Hbase.
Qed.

(** X14. [clearCache] forgets everything: the next call for a known tier
    sends its request whatever was cached before, and loading the cache
    file afterwards brings nothing back. *)
Theorem clearCache_forgets_everything prompt o p w model :
  models (selected_tier o) = Some model ->
  net_log (complete JSON_stringify fetch prompt o
             (clearCache p w).1.2 (clearCache p w).2).2 =
    net_log w ++ [requestBody prompt o p model]
  /\ LRU.items (cache (loadPersistentCache (clearCache p w).1.2
                         (clearCache p w).2).2) = [].
Proof.
  intros Hmodel. split; [|done].
  unfold complete, clearCache. cbn [fst snd]. rewrite Hmodel.
  unfold LRU.get, LRU.lookup. cbn.
  destruct (fetch _) as [e|status error|generated]; [done|done|].
  pose proof (HuggingFaceFacts.store_response_world
    (getCacheKey JSON_stringify prompt (id model) o) (generatedText generated)
    (with_stats (count_miss (cacheStats (with_cache (LRU.clear (cache p))
       (with_stats {| hits := 0; misses := 0; diskReads := 0; diskWrites := 0 |}
          (with_cache (LRU.clear (cache p)) p)))))
       (with_cache (LRU.clear (cache p))
          (with_stats {| hits := 0; misses := 0; diskReads := 0; diskWrites := 0 |}
             (with_cache (LRU.clear (cache p)) p))))
    (log_request (requestBody prompt o p model) (with_file NoFile w)))
    as [_ Hlog].
  destruct (store_response _ _ _ _) as [p4 w2] eqn:Hstore.
  cbn in Hlog |- *. done.
Qed.

(** X15. A fetched response reaches the disk only when the cache directory
    exists.  Without the directory the cache file is left as it was and no
    write is counted; with it, the file written holds the response under
    its key, expiring 24 hours after the call.  [initialize] is what
    creates the directory, and only when it accepts the credential. *)
Theorem complete_persists_only_with_directory prompt o p w model generated :
  models (selected_tier o) = Some model ->
  fetch (requestBody prompt o p model) = Ok generated ->
  net_log (complete JSON_stringify fetch prompt o p w).2 <> net_log w ->
  (cache_dir_exists w = false ->
   file (complete JSON_stringify fetch prompt o p w).2 = file w
   /\ diskWrites (cacheStats (complete JSON_stringify fetch prompt o p w).1.2) =
        diskWrites (cacheStats p))
  /\ (cache_dir_exists w = true ->
      exists data,
        file (complete JSON_stringify fetch prompt o p w).2 = CacheData data
        /\ data !! getCacheKey JSON_stringify prompt (id model) o =
             Some {| value := generatedText generated;
                     expires := clock w + TTL |})
  /\ (cache_dir_exists (initialize p w).2 = true <->
      cache_dir_exists w = true \/ (initialize p w).1 = Returned true).
Proof.
  intros Hmodel Hfetch H. split; [|split].
  - revert H. unfold complete. rewrite Hmodel.
    destruct (LRU.get _ _ _) as [cached c1].
    destruct (truthy_opt cached && negb (noCache o)); [by intros []|].
    rewrite Hfetch. intros _ Hdir.
    pose proof (store_response_no_directory
      (getCacheKey JSON_stringify prompt (id model) o) (generatedText generated)
      (with_stats (count_miss (cacheStats (with_cache c1 p))) (with_cache c1 p))
      (log_request (requestBody prompt o p model) w) Hdir) as Hfile.
    pose proof (store_response_provider
      (getCacheKey JSON_stringify prompt (id model) o) (generatedText generated)
      (with_stats (count_miss (cacheStats (with_cache c1 p))) (with_cache c1 p))
      (log_request (requestBody prompt o p model) w)) as (_ & _ & _ & Hwrites).
    destruct (store_response _ _ _ _) as [p4 w2]. cbn in *.
    rewrite Hdir in Hwrites. split; [done|lia].
  - revert H. unfold complete. rewrite Hmodel.
    destruct (LRU.get _ _ _) as [cached c1].
    destruct (truthy_opt cached && negb (noCache o)); [by intros []|].
    rewrite Hfetch. intros _ Hdir.
    pose proof (HuggingFaceFacts.store_response_file
      (getCacheKey JSON_stringify prompt (id model) o) (generatedText generated)
      (with_stats (count_miss (cacheStats (with_cache c1 p))) (with_cache c1 p))
      (log_request (requestBody prompt o p model) w) Hdir) as Hfile.
    destruct (store_response _ _ _ _) as [p4 w2]. cbn [fst snd] in *.
    eexists. split; [exact Hfile|]. apply export_entries_after_set.
  - unfold initialize.
    destruct (negb (String.prefix "hf_" (apiKey p)) || _); simpl.
    + split; [by left|]. by intros [?|?].
    + split; [by right|done].
Qed.

(** What [complete] can throw for a known tier. *)
Lemma complete_threw_range prompt o p w model message :
  models (selected_tier o) = Some model ->
  (complete JSON_stringify fetch prompt o p w).1.1 = Threw message ->
  exists e, message = complete_catch e.
Proof.
  intros Hmodel. unfold complete. rewrite Hmodel.
  destruct (LRU.get _ _ _) as [cached c1].
  destruct (truthy_opt cached && negb (noCache o)); [done|].
  destruct (fetch _) as [e|status error|generated]; simpl.
  - intros [= <-]. eauto.
  - intros [= <-]. eauto.
  - by destruct (store_response _ _ _ _).
Qed.

Lemma selected_test_tier tier model :
  models tier = Some model -> selected_tier (test_options tier) = tier.
Proof. destruct tier; [discriminate|reflexivity]. Qed.

Lemma checkModels_round_spec results p w tc :
  models tc.1 = Some tc.2 ->
  exists r p' w',
    checkModels_round JSON_stringify fetch (results, p, w) tc =
      (results ++ [(tc.1, r)], p', w')
    /\ blames_subscription (tc.1, r).
Proof.
  intros Hmodel. unfold checkModels_round.
  destruct (complete JSON_stringify fetch "Test" (test_options tc.1) p w)
    as [[[text|message] p'] w'] eqn:Hrun.
  - eexists _, _, _. split; [reflexivity|done].
  - eexists _, _, _. split; [reflexivity|]. unfold blames_subscription. simpl.
    destruct (complete_threw_range "Test" (test_options tc.1) p w tc.2 message)
      as [e ->]; [by rewrite (selected_test_tier tc.1 tc.2)|by rewrite Hrun|].
    assert (includes "401" (complete_catch e) = false) as ->; [|done].
    destruct (complete_catch_range e) as [Hrange|(key & text & Hmember & ->)].
    + rewrite !elem_of_cons, elem_of_nil in Hrange.
      destruct Hrange as [->|[->|[->|[->|[->|[->|[->|[->|[]]]]]]]]];
        vm_compute; reflexivity.
    + unfold Object_prototype in Hmember.
      rewrite !elem_of_cons, elem_of_nil in Hmember.
      destruct Hmember as
        [[= _ ->]|[[= _ ->]|[[= _ ->]|[[= _ ->]|[[= _ ->]|[[= _ ->]|
        [[= _ ->]|[[= _ ->]|[[= _ ->]|[[= _ ->]|[[= _ ->]|[[= _ ->]|[]]]]]]]]]]]]];
        vm_compute; reflexivity.
Qed.

Lemma checkModels_fold L : forall results p w,
  Forall (fun tc => models tc.1 = Some tc.2) L ->
  Forall blames_subscription results ->
  (foldl (checkModels_round JSON_stringify fetch) (results, p, w) L).1.1.*1 =
    results.*1 ++ L.*1
  /\ Forall blames_subscription
       (foldl (checkModels_round JSON_stringify fetch) (results, p, w) L).1.1.
Proof.
  induction L as [|tc L IH]; intros results p w HL Hres.
  - simpl. by rewrite app_nil_r.
  - apply Forall_cons in HL as [Htc HL]. cbn [foldl].
    destruct (checkModels_round_spec results p w tc Htc)
      as (r & p' & w' & -> & Hr).
    destruct (IH (results ++ [(tc.1, r)]) p' w' HL) as [Hkeys Hall].
    { apply Forall_app. split; [done|]. by apply Forall_singleton. }
    split; [|done]. rewrite Hkeys, fmap_app, fmap_cons. simpl.
    by rewrite <- app_assoc.
Qed.

(** X16. [checkModels] reports on the three tiers, in their order, and for
    a tier that failed it always suggests the subscription: none of the
    texts that [complete] throws contains 401, so the suggestion to check
    the credential is never given, not even when the remote end rejected
    the credential. *)
Theorem checkModels_never_blames_the_credential p w :
  (checkModels JSON_stringify fetch p w).1.1.*1 = ["fast"; "balanced"; "deep"]
  /\ forall tier model error suggestion,
       (tier, Unavailable model error suggestion) ∈
         (checkModels JSON_stringify fetch p w).1.1 ->
       suggestion = "Model may require Pro subscription".
Proof.
  unfold checkModels.
  destruct (checkModels_fold models_entries [] p w) as [Hkeys Hall].
  - repeat constructor.
  - constructor.
  - split; [exact Hkeys|].
    intros tier model error suggestion Hin.
    rewrite Forall_forall in Hall. exact (Hall _ Hin).
Qed.

End WithRuntime.

(** *** Across a restart *)






(** *** The cache key of [enhance] *)

Lemma substring_app n : forall s t,
  String.substring 0 n (s +:+ t) =
  String.substring 0 n s +:+ String.substring 0 (n - String.length s) t.
Proof.
  induction n as [|n IH]; intros s t.
  - destruct s; simpl; by destruct t.
  - destruct s as [|c s]; simpl; [done|]. by rewrite IH.
Qed.

Lemma substring_shorter n : forall k s t,
  (k <= n)%nat ->
  String.substring 0 n s = String.substring 0 n t ->
  String.substring 0 k s = String.substring 0 k t.
Proof.
  induction n as [|n IH]; intros k s t Hk.
  - assert (k = 0%nat) as -> by lia. done.
  - destruct k as [|k]; [intros _; by destruct s, t|].
    destruct s as [|c s], t as [|d t]; simpl; try done.
    intros [= -> H]. f_equal. apply (IH k); [lia|done].
Qed.

Lemma substring_full n : forall s,
  (String.length s <= n)%nat -> String.substring 0 n s = s.
Proof.
  induction n as [|n IH]; intros [|c s]; simpl; try done; [lia|].
  intros Hlen. f_equal. apply IH. lia.
Qed.

Lemma substring_length n : forall s,
  (n <= String.length s)%nat -> String.length (String.substring 0 n s) = n.
Proof.
  induction n as [|n IH]; intros [|c s]; simpl; try done; [lia|].
  intros Hlen. f_equal. apply IH. lia.
Qed.

(** Two texts that agree on their first [n] characters still do so after
    the same text is appended to both. *)
Lemma substring_app_agree n s1 s2 t :
  String.substring 0 n s1 = String.substring 0 n s2 ->
  String.substring 0 n (s1 +:+ t) = String.substring 0 n (s2 +:+ t).
Proof.
  intros Hagree. rewrite !substring_app, Hagree. f_equal.
  destruct (decide (String.length s1 <= n)%nat) as [H1|H1];
    destruct (decide (String.length s2 <= n)%nat) as [H2|H2].
  - rewrite !substring_full in Hagree by done. by rewrite Hagree.
  - rewrite substring_full in Hagree by done.
    apply (f_equal String.length) in Hagree.
    rewrite substring_length in Hagree by lia.
    by replace (n - String.length s1)%nat with (n - String.length s2)%nat by lia.
  - rewrite (substring_full n s2) in Hagree by done.
    apply (f_equal String.length) in Hagree.
    rewrite substring_length in Hagree by lia.
    by replace (n - String.length s1)%nat with (n - String.length s2)%nat by lia.
  - by replace (n - String.length s1)%nat with (n - String.length s2)%nat by lia.
Qed.

Lemma length_app_string s t :
  String.length (s +:+ t) = (String.length s + String.length t)%nat.
Proof. induction s as [|c s IH]; simpl; [done|]. by rewrite IH. Qed.

Lemma getSystemPromptForMode_length mode :
  inherited_member mode = None ->
  (59 <= String.length (BaseProviderMore.getSystemPromptForMode mode))%nat.
Proof.
  intros Hnone.
  unfold BaseProviderMore.getSystemPromptForMode, BaseProviderMore.prompts.
  repeat match goal with
         | |- context [if ?c then _ else _] => destruct c
         end; rewrite ?Hnone; simpl; lia.
Qed.

(** The first hundred characters of the prompt that [enhance] builds depend
    on the user's prompt through its first characters only. *)
Lemma fullPrompt_prefix prompt1 prompt2 mode :
  String.substring 0
    (85 - String.length (BaseProviderMore.getSystemPromptForMode mode)) prompt1 =
  String.substring 0
    (85 - String.length (BaseProviderMore.getSystemPromptForMode mode)) prompt2 ->
  String.substring 0 100 (BaseProviderMore.fullPrompt prompt1 mode) =
  String.substring 0 100 (BaseProviderMore.fullPrompt prompt2 mode).
Proof.
  intros Hagree. unfold BaseProviderMore.fullPrompt.
  set (system := BaseProviderMore.getSystemPromptForMode mode) in *.
  rewrite !(substring_app 100 system). f_equal.
  change (newline +:+ newline +:+ "User prompt: " +:+ ?p +:+ ?rest)
    with ((newline +:+ newline +:+ "User prompt: ") +:+ (p +:+ rest)).
  rewrite !(substring_app _ (newline +:+ newline +:+ "User prompt: ")). f_equal.
  apply substring_app_agree.
  by replace (100 - String.length system
              - String.length (newline +:+ newline +:+ "User prompt: "))%nat
    with (85 - String.length system)%nat by (simpl; lia).
Qed.

Section Enhance.

Context (JSON_stringify : key_params -> string) (fetch : request -> response).

(** X18. [enhance] wraps the user's prompt in a fixed frame before
    [complete] derives the cache key from the first hundred characters, so
    only the first characters of the user's prompt reach the key: 85 minus
    the length of the mode's system prompt, which is at most 26 for every
    mode that names no member that every object inherits.  After a call
    that obtained a non-empty text from the API, a call in the same mode
    for any prompt that starts with the same characters, made before the
    entry expires and without [noCache], returns that text and sends
    nothing. *)
Theorem enhance_prefix_collision prompt1 prompt2 mode o p w text p' w' r t :
  String.substring 0
    (85 - String.length (BaseProviderMore.getSystemPromptForMode mode)) prompt1 =
  String.substring 0
    (85 - String.length (BaseProviderMore.getSystemPromptForMode mode)) prompt2 ->
  noCache o = false ->
  LRU.ttl (cache p) = TTL ->
  enhance JSON_stringify fetch prompt1 mode o p w = (Returned text, p', w') ->
  net_log w' = net_log w ++ [r] ->
  text <> EmptyString ->
  t < clock w + TTL ->
  (inherited_member mode = None ->
   (85 - String.length (BaseProviderMore.getSystemPromptForMode mode) <= 26)%nat)
  /\ exists p'',
       enhance JSON_stringify fetch prompt2 mode o p' (at_time t w') =
       (Returned text, p'', at_time t w').
Proof.
  intros Hagree HnoCache Httl Hrun Hlog Htext Ht.
  split; [intros Hnone; pose proof (getSystemPromptForMode_length mode Hnone); lia|].
  apply fullPrompt_prefix in Hagree. unfold enhance in *.
  destruct (HuggingFaceFacts.complete_generated _ _ _ _ _ _ _ _ _ _ Hrun Hlog)
    as (model & c1 & Hmodel & Httl1 & Hcache & Hclock).
  unfold complete. rewrite Hmodel.
  rewrite <- (HuggingFaceFacts.getCacheKey_prefix JSON_stringify
                (BaseProviderMore.fullPrompt prompt1 mode)
                (BaseProviderMore.fullPrompt prompt2 mode)) by done.
  cbn [clock at_time].
  destruct (LRU.get t _ (cache p')) as [cached c2] eqn:Hget.
  assert (cached = Some text) as ->.
  { replace cached with (LRU.get t
      (getCacheKey JSON_stringify (BaseProviderMore.fullPrompt prompt1 mode)
         (id model) o) (cache p')).1 by (by rewrite Hget).
    rewrite Hcache. apply LRUFacts.get_after_set. rewrite Httl1, Httl. lia. }
  assert (truthy_opt (Some text) = true) as -> by (by destruct text).
  rewrite HnoCache. simpl. eauto.
Qed.

End Enhance.

Lemma complete_accepts_listed_tiers_turbo :
  complete bar_separated Samples.fetch_text "Hello"
    {| modelTier := Some "turbo"; noCache := false; opt_maxTokens := None;
       temperature := None; top_p := None |}
    (Samples.blank_provider Samples.good_key 0) Samples.bare_world =
  (Threw "Unknown model tier: turbo. Use 'fast', 'balanced', or 'deep'",
   Samples.blank_provider Samples.good_key 0, Samples.bare_world).
Proof.
  apply (complete_accepts_listed_tiers bar_separated Samples.fetch_text "Hello").
  - reflexivity.
  - refine (bool_decide_unpack _ _). vm_compute. exact I.
Defined.

Lemma complete_failure_leaves_no_trace_refused :
  let run := complete bar_separated MoreSamples.fetch_refused "Hello"
               Samples.no_options (Samples.blank_provider Samples.good_key 0)
               Samples.bare_world in
  run.1.1 = Threw "HuggingFace API error: Connection refused. Is the service running?"
  /\ length (net_log run.2) = 1%nat
  /\ file run.2 = NoFile
  /\ BaseProvider.requests (BaseProvider.usage (base run.1.2)) = 0.
Proof.
  intros run.
  destruct (complete_failure_leaves_no_trace bar_separated
              MoreSamples.fetch_refused "Hello" Samples.no_options
              (Samples.blank_provider Samples.good_key 0) Samples.bare_world
              MoreSamples.balanced_model
              "HuggingFace API error: Connection refused. Is the service running?")
    as (Hlog & Hfile & Hbase & _ & _).
  - reflexivity.
  - vm_compute. reflexivity.
  - fold run in Hlog, Hfile, Hbase. split; [vm_compute; reflexivity|].
    split; [by rewrite Hlog|]. split; [exact Hfile|]. by rewrite Hbase.
Defined.

Lemma complete_hides_http_status_unauthorized :
  (complete bar_separated MoreSamples.fetch_unauthorized "Hello"
     Samples.no_options (Samples.blank_provider Samples.good_key 0)
     Samples.bare_world).1.1 =
  Threw "HuggingFace API error: An error occurred".
Proof.
  destruct (complete_hides_http_status bar_separated
              MoreSamples.fetch_unauthorized "Hello" Samples.no_options
              (Samples.blank_provider Samples.good_key 0) Samples.bare_world
              MoreSamples.balanced_model 401
              (Some "Invalid credentials in Authorization header")
              "HuggingFace API error: An error occurred")
    as [Hrate|Hgeneric].
  - reflexivity.
  - reflexivity.
  - vm_compute. reflexivity.
  - discriminate Hrate.
  - vm_compute. reflexivity.
Defined.

Lemma complete_noCache_refetches_sample :
  net_log (complete bar_separated Samples.fetch_text "Hello"
             MoreSamples.fresh_options
             (Samples.blank_provider Samples.good_key 0)
             Samples.no_dir_world).2 =
  [requestBody "Hello" MoreSamples.fresh_options
     (Samples.blank_provider Samples.good_key 0) MoreSamples.balanced_model].
Proof.
  destruct (complete_noCache_refetches bar_separated Samples.fetch_text "Hello"
              MoreSamples.fresh_options
              (Samples.blank_provider Samples.good_key 0) Samples.no_dir_world
              MoreSamples.balanced_model) as [Hlog _].
  - reflexivity.
  - reflexivity.
  - exact Hlog.
Defined.

Lemma complete_counts_each_call_sample :
  let run := complete bar_separated Samples.fetch_text "Hello"
               Samples.no_options (Samples.blank_provider Samples.good_key 0)
               Samples.no_dir_world in
  misses (cacheStats run.1.2) = 1
  /\ BaseProvider.requests (BaseProvider.usage (base run.1.2)) = 1
  /\ BaseProvider.tokens (BaseProvider.usage (base run.1.2)) = 5.
Proof.
  intros run.
  destruct (complete_counts_each_call bar_separated Samples.fetch_text "Hello"
              Samples.no_options (Samples.blank_provider Samples.good_key 0)
              Samples.no_dir_world MoreSamples.balanced_model)
    as [(Hlog & _)|(_ & _ & Hmisses & Hbase)].
  - reflexivity.
  - exfalso. vm_compute in Hlog. discriminate Hlog.
  - fold run in Hmisses, Hbase. split; [by rewrite Hmisses|].
    assert (run.1.1 = Returned "generated") as Hout by (vm_compute; reflexivity).
    rewrite Hout in Hbase. rewrite Hbase. split; reflexivity.
Defined.

Lemma clearCache_forgets_everything_full_cache :
  net_log (complete bar_separated Samples.fetch_text "Hello" Samples.no_options
             (clearCache Samples.full_provider Samples.no_dir_world).1.2
             (clearCache Samples.full_provider Samples.no_dir_world).2).2 =
  [requestBody "Hello" Samples.no_options Samples.full_provider
     MoreSamples.balanced_model].
Proof.
  destruct (clearCache_forgets_everything bar_separated Samples.fetch_text
              "Hello" Samples.no_options Samples.full_provider
              Samples.no_dir_world MoreSamples.balanced_model) as [Hlog _].
  - reflexivity.
  - exact Hlog.
Defined.

Lemma complete_persists_only_with_directory_no_directory :
  file (complete bar_separated Samples.fetch_text "Hello" Samples.no_options
          (Samples.blank_provider Samples.good_key 0) Samples.no_dir_world).2 =
  NoFile.
Proof.
  destruct (complete_persists_only_with_directory bar_separated
              Samples.fetch_text "Hello" Samples.no_options
              (Samples.blank_provider Samples.good_key 0) Samples.no_dir_world
              MoreSamples.balanced_model (Some "generated"))
    as (Hwithout & _ & _).
  - reflexivity.
  - reflexivity.
  - vm_compute. discriminate.
  - destruct Hwithout as [Hfile _]; [reflexivity|]. exact Hfile.
Defined.

Lemma checkModels_never_blames_the_credential_unauthorized :
  exists suggestion,
    ("balanced",
     Unavailable "mistralai/Mixtral-8x7B-Instruct-v0.1"
       "HuggingFace API error: An error occurred" suggestion)
      ∈ (checkModels bar_separated MoreSamples.fetch_unauthorized
           (Samples.blank_provider Samples.good_key 0) Samples.bare_world).1.1
    /\ suggestion = "Model may require Pro subscription".
Proof.
  eexists.
  match goal with
  | |- ?membership /\ _ => assert membership as Hin
  end.
  { apply list_elem_of_In. vm_compute. right. left. reflexivity. }
  split; [exact Hin|].
  destruct (checkModels_never_blames_the_credential bar_separated
              MoreSamples.fetch_unauthorized
              (Samples.blank_provider Samples.good_key 0) Samples.bare_world)
    as [_ Hall].
  exact (Hall _ _ _ _ Hin).
Defined.


Lemma enhance_prefix_collision_translate :
  exists p' w' p'',
    enhance bar_separated Samples.fetch_text "Translate this to French"
      "analysis" Samples.no_options
      (Samples.blank_provider Samples.good_key 1000000)
      Samples.no_dir_world = (Returned "generated", p', w') /\
    enhance bar_separated Samples.fetch_text "Translate that to German"
      "analysis" Samples.no_options p' (at_time 2000000 w') =
    (Returned "generated", p'', at_time 2000000 w').
Proof.
  eexists _, _.
  match goal with
  | |- exists p'', ?first /\ _ =>
      assert first as Hfirst by (vm_compute; reflexivity)
  end.
  match type of Hfirst with
  | _ = (_, ?p', ?w') =>
      destruct (enhance_prefix_collision
                  bar_separated Samples.fetch_text
                  "Translate this to French" "Translate that to German"
                  "analysis" Samples.no_options
                  (Samples.blank_provider Samples.good_key 1000000)
                  Samples.no_dir_world "generated" p' w'
                  {| req_model := "mistralai/Mixtral-8x7B-Instruct-v0.1";
                     req_apiKey := Samples.good_key;
                     inputs := BaseProviderMore.fullPrompt
                                 "Translate this to French" "analysis";
                     max_new_tokens := 1024;
                     req_temperature := 7 # 10;
                     req_top_p := 9 # 10 |}
                  2000000)
        as [_ [p'' Hsecond]]
  end.
  - reflexivity.
  - reflexivity.
  - reflexivity.
  - exact Hfirst.
  - vm_compute. reflexivity.
  - discriminate.
  - vm_compute. reflexivity.
  - exists p''. split; [exact Hfirst | exact Hsecond].
Defined.

End HuggingFaceMoreFacts.

(** ** Local inference: pulls, the budget, the counters *)

Module OllamaMoreFacts.
Import Ollama OllamaMore.

Lemma existsb_eqb_present (m : string) (names : list string) :
  m ∈ names -> existsb (String.eqb m) names = true.
Proof.
  intros Hin. apply existsb_exists. exists m.
  split; [by apply list_elem_of_In|apply String.eqb_refl].
Qed.

Lemma with_base_same (p : provider) : with_base (base p) p = p.
Proof. by destruct p. Qed.

Section WithDaemon.

Context (tags : tags_response) (pull : string -> pull_response)
        (generate : generate_body -> generate_response).

(** X19. A model that the daemon lists is never pulled: a call that names
    it, made within the budget, sends the listing and then the generation
    request, and nothing else, whatever [autoPull] says. *)
Theorem complete_installed_model_is_not_pulled prompt o p w m names :
  named_model o p = Some m ->
  m ∈ names ->
  (BaseProvider.checkRateLimits (clock w) (base p)).1 = Returned tt ->
  net_log (complete (TagsOk names) pull generate prompt o p w).2 =
    net_log w ++ [GetTags; PostGenerate (requestBody m prompt o)].
Proof.
  intros Hnamed Hin Hlimit. unfold complete.
  rewrite (OllamaFacts.select_named_model _ o p w m Hnamed).
  destruct (BaseProvider.checkRateLimits (clock w) (base p)) as [[[]|msg] b];
    [|done].
  cbn [listModels]. unfold ensure_model.
  rewrite existsb_eqb_present by done.
  rewrite OllamaFacts.generate_text_log. cbn [net_log log_request].
  by rewrite <- app_assoc.
Qed.

(** X20. The local provider honours its hourly budget: once the counter
    has reached the limit, a call made within the hour throws the
    rate-limit error before anything is sent, and leaves the provider and
    the world as they are. *)
Theorem complete_honours_the_budget prompt o p w m :
  named_model o p = Some m ->
  BaseProvider.requestsPerHour (BaseProvider.rateLimits (base p)) <=
    BaseProvider.requests (BaseProvider.usage (base p)) ->
  clock w - BaseProvider.lastReset (BaseProvider.usage (base p)) <= 3600000 ->
  complete tags pull generate prompt o p w =
    (Threw (BaseProvider.rate_limit_message
              (BaseProvider.requestsPerHour (BaseProvider.rateLimits (base p)))),
     p, w).
Proof.
  intros Hnamed Hfull Hwithin. unfold complete.
  rewrite (OllamaFacts.select_named_model _ o p w m Hnamed).
  unfold BaseProvider.checkRateLimits.
  apply Z.ltb_ge in Hwithin. rewrite Hwithin.
  apply Z.leb_le in Hfull. rewrite Hfull. by rewrite with_base_same.
Qed.

Lemma getBestModelForMode_base_clock mode p w :
  base (getBestModelForMode tags mode p w).1.2 = base p
  /\ clock (getBestModelForMode tags mode p w).2 = clock w.
Proof.
  unfold getBestModelForMode.
  destruct (availableModels p) as [l|].
  - destruct l; [done|]. by destruct (preferences mode).
  - unfold listModels. destruct tags as [e|status|names]; try done.
    destruct names; [done|]. by destruct (preferences mode).
Qed.

(** X21. The usage counters move only when a text is returned.  Whatever
    the daemon answers, after [complete] the counters are those left by
    the rate check, except when the call returns a generated text: then one
    request and the estimates for the prompt and the text are added.  A
    streamed answer and every failure count for nothing. *)
Theorem complete_counts_only_returned_text prompt o p w :
  match (complete tags pull generate prompt o p w).1.1 with
  | Returned (Text response) =>
      base (complete tags pull generate prompt o p w).1.2 =
        BaseProvider.trackUsage
          (BaseProvider.estimateTokens prompt
           + BaseProvider.estimateTokens response)
          (BaseProvider.checkRateLimits (clock w) (base p)).2
  | _ =>
      base (complete tags pull generate prompt o p w).1.2 =
        (BaseProvider.checkRateLimits (clock w) (base p)).2
  end.
Proof.
  unfold complete.
  match goal with
  | |- context [if truthy_opt (model o) then ?a else ?b] =>
      remember (if truthy_opt (model o) then a else b) as sel eqn:Hsel
  end.
  assert (base sel.1.2 = base p /\ clock sel.2 = clock w) as [Hbase Hclock].
  { subst sel. destruct (truthy_opt (model o)); [done|].
    destruct (truthy (defaultModel p)); [done|].
    apply getBestModelForMode_base_clock. }
  clear Hsel. destruct sel as [[m p0] w0]. cbn [fst snd] in Hbase, Hclock.
  rewrite Hbase, Hclock.
  destruct (BaseProvider.checkRateLimits (clock w) (base p)) as [[[]|msg] b];
    [|done].
  destruct (listModels tags w0) as [[models|msg] w1]; [|done].
  destruct (ensure_model pull m o models w1) as [[ok|msg] w2]; [|done].
  unfold generate_text.
  destruct (generate _) as [e|text|text]; [done|done|].
  destruct (stream o); [done|]. by destruct text.
Qed.

Lemma preferred_matches_installed (prefs names : list string) :
  Forall (fun m => m ∈ names)
    (omap (fun pref => List.find (String.prefix pref) names) prefs).
Proof.
  induction prefs as [|pref prefs IH]; [constructor|]. cbn [omap list_omap].
  destruct (List.find (String.prefix pref) names) as [m|] eqn:Hfind; [|done].
  constructor; [|done]. apply find_some in Hfind as [Hin _].
  by apply list_elem_of_In.
Qed.

Lemma preferences_inherited mode :
  preferences mode = None <-> is_Some (inherited_member mode).
Proof.
  unfold preferences.
  destruct (String.eqb_spec mode "coding") as [->|_];
    [split; [done|by intros [? [=]]]|].
  destruct (String.eqb_spec mode "ultrathink") as [->|_];
    [split; [done|by intros [? [=]]]|].
  destruct (String.eqb_spec mode "creative") as [->|_];
    [split; [done|by intros [? [=]]]|].
  destruct (String.eqb_spec mode "analysis") as [->|_];
    [split; [done|by intros [? [=]]]|].
  destruct (inherited_member mode); split; eauto; done.
Qed.

(** X22. [getBestModelForMode] answers with the name of an installed model
    whenever it knows of one and the mode names no member that every object
    inherits; otherwise it answers with the default model: when no model is
    installed, when the listing failed, and for a mode such as [toString],
    on which the loop over the preferences throws.  It asks the daemon at
    most once: with a model list already kept it sends nothing and changes
    nothing, without one it sends exactly the listing request. *)
Theorem getBestModelForMode_picks_installed mode p w :
  match availableModels (getBestModelForMode tags mode p w).1.2 with
  | Some (first :: rest) =>
      (inherited_member mode = None ->
       (getBestModelForMode tags mode p w).1.1 ∈ first :: rest)
      /\ (is_Some (inherited_member mode) ->
          (getBestModelForMode tags mode p w).1.1 = defaultModel p)
  | _ => (getBestModelForMode tags mode p w).1.1 = defaultModel p
  end
  /\ (is_Some (availableModels p) ->
      (getBestModelForMode tags mode p w).1.2 = p
      /\ (getBestModelForMode tags mode p w).2 = w)
  /\ (availableModels p = None ->
      net_log (getBestModelForMode tags mode p w).2 = net_log w ++ [GetTags]).
Proof.
  assert (forall prefs first rest,
            List.hd first
              (omap (fun pref => List.find (String.prefix pref) (first :: rest))
                 prefs) ∈ first :: rest) as Hpick.
  { intros prefs first rest.
    pose proof (preferred_matches_installed prefs (first :: rest)) as Hall.
    destruct (omap _ _) as [|m l]; [by left|].
    by apply Forall_cons in Hall as [? _]. }
  assert (forall first rest (q : provider) (w0 : world),
            availableModels q = Some (first :: rest) ->
            let run :=
              match preferences mode with
              | Some modePrefs =>
                  (List.hd first
                     (omap (fun pref =>
                              List.find (String.prefix pref) (first :: rest))
                        modePrefs), q, w0)
              | None => (defaultModel q, q, w0)
              end in
            match availableModels run.1.2 with
            | Some (first :: rest) =>
                (inherited_member mode = None -> run.1.1 ∈ first :: rest)
                /\ (is_Some (inherited_member mode) -> run.1.1 = defaultModel q)
            | _ => run.1.1 = defaultModel q
            end) as Hchoice.
  { intros first rest q w0 Hq.
    pose proof (preferences_inherited mode) as Hinh.
    destruct (preferences mode) as [prefs|]; cbn [fst snd]; rewrite Hq.
    - split; [intros _; apply Hpick|]. intros Hsome.
      apply Hinh in Hsome. done.
    - split; [|done]. intros Hnone. destruct Hinh as [Hinh _].
      destruct (Hinh eq_refl) as [? Hsome]. congruence. }
  unfold getBestModelForMode.
  destruct (availableModels p) as [l|] eqn:Hcached.
  - split; [|split; [|done]].
    + destruct l as [|first rest]; [cbn [fst snd]; by rewrite Hcached|].
      by apply Hchoice.
    + intros _. destruct l; [done|]. by destruct (preferences mode).
  - split; [|split; [by intros [? ?]|]].
    + unfold listModels. destruct tags as [e|status|names]; cbn [fst snd];
        rewrite ?Hcached; try done.
      destruct names as [|first rest];
        [cbn [fst snd availableModels with_availableModels]; done|].
      by apply (Hchoice first rest (with_availableModels (first :: rest) p)).
    + intros _. unfold listModels.
      destruct tags as [e|status|names]; try done.
      destruct names; [done|]. by destruct (preferences mode).
Qed.

Lemma getBestModelForMode_log mode p w r :
  r ∈ net_log (getBestModelForMode tags mode p w).2 ->
  r ∈ net_log w \/ r = GetTags.
Proof.
  unfold getBestModelForMode. destruct (availableModels p) as [l|].
  - destruct l; [by left|]. destruct (preferences mode); by left.
  - unfold listModels.
    destruct tags as [e|status|[|first rest]];
      try destruct (preferences mode);
      cbn [fst snd net_log log_request];
      rewrite elem_of_app, list_elem_of_singleton;
      (intros [?|?]; [by left|by right]).
Qed.

Lemma complete_log_from prompt o p w r :
  r ∈ net_log (complete tags pull generate prompt o p w).2 ->
  r ∈ net_log w \/ r = GetTags \/ (exists m, r = PostPull m)
  \/ exists m, r = PostGenerate (requestBody m prompt o).
Proof.
  unfold complete.
  match goal with
  | |- context [if truthy_opt (model o) then ?a else ?b] =>
      remember (if truthy_opt (model o) then a else b) as sel eqn:Hsel
  end.
  assert (forall r, r ∈ net_log sel.2 -> r ∈ net_log w \/ r = GetTags) as Hsent.
  { subst sel. destruct (truthy_opt (model o)); [by left|].
    destruct (truthy (defaultModel p)); [by left|].
    intros r'. apply getBestModelForMode_log. }
  clear Hsel. destruct sel as [[m p0] w0]. cbn [fst snd] in Hsent.
  destruct (BaseProvider.checkRateLimits (clock w0) (base p0)) as [[[]|msg] b];
    cbn [fst snd]; [|intros Hr; apply Hsent in Hr; tauto].
  assert (forall r, r ∈ net_log (listModels tags w0).2 ->
                    r ∈ net_log w \/ r = GetTags) as Hlisted.
  { intros r'. unfold listModels.
    destruct tags; cbn [snd net_log log_request];
      rewrite elem_of_app, list_elem_of_singleton;
      (intros [Hr|Hr]; [by apply Hsent|by right]). }
  destruct (listModels tags w0) as [[models|msg] w1]; cbn [fst snd] in *;
    [|intros Hr; apply Hlisted in Hr; tauto].
  assert (forall r, r ∈ net_log (ensure_model pull m o models w1).2 ->
                    r ∈ net_log w \/ r = GetTags \/ exists m', r = PostPull m')
    as Hensured.
  { intros r'. unfold ensure_model.
    destruct (existsb _ _); [intros Hr; apply Hlisted in Hr; tauto|].
    destruct (negb _); [|intros Hr; apply Hlisted in Hr; tauto].
    unfold pullModel.
    destruct (pull m); cbn [snd net_log log_request];
      rewrite elem_of_app, list_elem_of_singleton;
      (intros [Hr|Hr]; [apply Hlisted in Hr; tauto|eauto]). }
  destruct (ensure_model pull m o models w1) as [[ok|msg] w2]; cbn [fst snd] in *;
    [|intros Hr; apply Hensured in Hr; tauto].
  rewrite OllamaFacts.generate_text_log, elem_of_app, list_elem_of_singleton.
  intros [Hr|Hr]; [apply Hensured in Hr; tauto|eauto 6].
Qed.

(** X23. [enhance] ignores the caller's temperature.  Every generation
    request that [enhance] sends carries the temperature 0.9 in the
    creative mode and 0.7 in every other mode, whatever [options.temperature]
    is, and always carries a system prompt. *)
Theorem enhance_fixes_the_temperature prompt mode o p w body :
  PostGenerate body ∈ net_log (enhance tags pull generate prompt mode o p w).2 ->
  PostGenerate body ∈ net_log w
  \/ (gen_temperature body = (if String.eqb mode "creative" then 9 # 10 else 7 # 10)
      /\ is_Some (gen_system body)).
Proof.
  unfold enhance.
  match goal with
  | |- context [if truthy_opt (model o) then ?a else ?b] =>
      remember (if truthy_opt (model o) then a else b) as sel eqn:Hsel
  end.
  assert (forall r, r ∈ net_log sel.2 -> r ∈ net_log w \/ r = GetTags) as Hsent.
  { subst sel. destruct (truthy_opt (model o)); [by left|].
    intros r'. apply getBestModelForMode_log. }
  clear Hsel. destruct sel as [[m p0] w0]. cbn [fst snd] in Hsent.
  intros Hbody. apply complete_log_from in Hbody
    as [Hr|[Hr|[[m' Hr]|[m' Hr]]]]; try done.
  - apply Hsent in Hr as [Hr|Hr]; [by left|done].
  - right. injection Hr as ->. cbn. split.
    + by destruct (String.eqb mode "creative").
    + unfold js_or. destruct (system o) as [[|c s]|]; cbn; eauto.
Qed.

End WithDaemon.

Lemma complete_installed_model_is_not_pulled_default :
  net_log (complete (TagsOk Samples.installed) Samples.pull_ok
             Samples.generate_ok "hello" MoreSamples.ask_default
             Samples.local_provider Samples.local_world).2 =
  [GetTags; PostGenerate (requestBody "llama3.2:1b" "hello" MoreSamples.ask_default)].
Proof.
  apply (complete_installed_model_is_not_pulled Samples.pull_ok
           Samples.generate_ok "hello" MoreSamples.ask_default
           Samples.local_provider Samples.local_world "llama3.2:1b"
           Samples.installed).
  - reflexivity.
  - refine (bool_decide_unpack _ _). vm_compute. exact I.
  - reflexivity.
Defined.

Lemma complete_honours_the_budget_spent :
  complete (TagsOk Samples.installed) Samples.pull_ok Samples.generate_ok
    "hello" MoreSamples.ask_default MoreSamples.spent_provider
    Samples.local_world =
  (Threw "Rate limit exceeded: 10000 requests per hour",
   MoreSamples.spent_provider, Samples.local_world).
Proof.
  apply (complete_honours_the_budget (TagsOk Samples.installed)
           Samples.pull_ok Samples.generate_ok "hello" MoreSamples.ask_default
           MoreSamples.spent_provider Samples.local_world "llama3.2:1b").
  - reflexivity.
  - simpl. lia.
  - simpl. lia.
Defined.

Lemma getBestModelForMode_picks_installed_cached :
  ((getBestModelForMode (TagsFailed (new_Error "down")) "coding"
      MoreSamples.listed_provider Samples.local_world).1.2 =
     MoreSamples.listed_provider
   /\ (getBestModelForMode (TagsFailed (new_Error "down")) "coding"
         MoreSamples.listed_provider Samples.local_world).2 =
      Samples.local_world)
  /\ (getBestModelForMode (TagsFailed (new_Error "down")) "analysis"
        MoreSamples.mistral_only Samples.local_world).1.1 = "mistral:7b"
  /\ (getBestModelForMode (TagsFailed (new_Error "down")) "toString"
        MoreSamples.mistral_only Samples.local_world).1.1 = "llama3.2:1b".
Proof.
  split; [|split].
  - destruct (getBestModelForMode_picks_installed (TagsFailed (new_Error "down"))
                "coding" MoreSamples.listed_provider Samples.local_world)
      as (_ & Hkept & _).
    apply Hkept. by eexists.
  - destruct (getBestModelForMode_picks_installed (TagsFailed (new_Error "down"))
                "analysis" MoreSamples.mistral_only Samples.local_world)
      as ([Hinstalled _] & _ & _).
    specialize (Hinstalled eq_refl).
    apply list_elem_of_singleton in Hinstalled. exact Hinstalled.
  - destruct (getBestModelForMode_picks_installed (TagsFailed (new_Error "down"))
                "toString" MoreSamples.mistral_only Samples.local_world)
      as ([_ Hdefault] & _ & _).
    apply Hdefault. by eexists.
Defined.

Lemma enhance_fixes_the_temperature_cold :
  gen_temperature
    (requestBody "llama3.2:1b"
       (default EmptyString (enhancementPrompts "a haiku" "creative"))
       (enhance_options "creative" "llama3.2:1b" MoreSamples.ask_cold)) = 9 # 10.
Proof.
  destruct (enhance_fixes_the_temperature (TagsOk Samples.installed)
              Samples.pull_ok Samples.generate_ok "a haiku" "creative"
              MoreSamples.ask_cold MoreSamples.listed_provider
              Samples.local_world
              (requestBody "llama3.2:1b"
                 (default EmptyString (enhancementPrompts "a haiku" "creative"))
                 (enhance_options "creative" "llama3.2:1b" MoreSamples.ask_cold)))
    as [Hold|[Htemperature _]].
  - apply list_elem_of_In. vm_compute. right. left. reflexivity.
  - apply list_elem_of_In in Hold. destruct Hold.
  - exact Htemperature.
Defined.

End OllamaMoreFacts.

(** ** The enhancer's cache file: rescue and clean-up *)

Module AIEnhancerFacts.
Import HuggingFace AIEnhancer.









End AIEnhancerFacts.
